(** * hf_extension.py: Fisher-matrix accumulation through a pipeline hook

    A shallow embedding of [src/computation/hf_extension.py]:
    the class [HessianCallback], the wrapper factory [add_callback] and the
    driver [fisher_matrix].  Python objects that are mutated in place (the
    accumulator, the pipeline, the outputs of a forward call) live in an
    explicit store; Python exceptions are the [Raise] outcome of a small
    state-and-error monad. *)

From stdpp Require Import list strings.
From Stdlib Require Import ZArith Lia Floats QArith Qcanon.

Local Open Scope Z_scope.

(** ** Exceptions and outcomes *)

(** The exceptions the module can meet.  [AttributeError] is what Python
    raises for a missing attribute; [ArithmeticError] stands for the
    ZeroDivisionError family; [ShapeError] is the error of the flatten step;
    [TypeError] is a call with the wrong number of arguments;
    [InvalidReference] is a dangling object id (never produced by the
    allocation functions below); [Raised n] is any error raised by a
    collaborator (model forward pass, curvature formula). *)
Inductive exn : Type :=
| AttributeError (attr : string)
| ArithmeticError
| ShapeError
| TypeError
| InvalidReference
| Raised (code : nat).

Inductive result (A : Type) : Type :=
| Ok (a : A)
| Raise (e : exn).
Arguments Ok {A} a.
Arguments Raise {A} e.

Definition is_ok {A} (r : result A) : bool :=
  match r with Ok _ => true | Raise _ => false end.

Definition rbind {A B} (r : result A) (k : A -> result B) : result B :=
  match r with Ok a => k a | Raise e => Raise e end.

(** A computation over a store [St]: it returns a value or raises, and in
    both cases leaves a store behind (a Python exception does not roll back
    the mutations made before it). *)
Definition M (St A : Type) : Type := St -> result A * St.

Definition ret {St A} (a : A) : M St A := fun s => (Ok a, s).
Definition raise {St A} (e : exn) : M St A := fun s => (Raise e, s).
Definition bind {St A B} (c : M St A) (k : A -> M St B) : M St B :=
  fun s => match c s with
           | (Ok a, s') => k a s'
           | (Raise e, s') => (Raise e, s')
           end.
Definition get {St} : M St St := fun s => (Ok s, s).
Definition put {St} (s : St) : M St unit := fun _ => (Ok tt, s).
Definition modify {St} (f : St -> St) : M St unit := fun s => (Ok tt, f s).
Definition lift {St A} (r : result A) : M St A := fun s => (r, s).

Declare Scope py_scope.
Delimit Scope py_scope with py.
Notation "x <- c ;; k" := (bind c (fun x => k))
  (at level 100, c at next level, right associativity) : py_scope.
Notation "c ;;; k" := (bind c (fun _ => k))
  (at level 100, right associativity) : py_scope.
Local Open Scope py_scope.

(** ** Tensors *)

(** The element arithmetic of the tensor library: the zero element, the
    element-wise addition behind [+=] and the division of an element by a
    Python integer behind [tensor / int].  The tensor library's division is
    a total operation: it returns a tensor for every divisor. *)
Class Elem (R : Type) : Type := {
  ezero : R;
  eadd : R -> R -> R;
  ediv : R -> Z -> R
}.

(** Element addition without rounding. *)
Class ExactAdd (R : Type) `{Elem R} : Prop := {
  eadd_comm : forall x y : R, eadd x y = eadd y x;
  eadd_assoc : forall x y z : R, eadd x (eadd y z) = eadd (eadd x y) z
}.

Definition shape : Type := list nat.

Definition numel (s : shape) : nat := foldr Nat.mul 1%nat s.

(** One per-parameter tensor, as the curvature formula returns it. *)
Record Tensor (R : Type) : Type := mkTensor {
  tshape : shape;
  tdata : list R
}.
Arguments mkTensor {R} tshape tdata.
Arguments tshape {R} t.
Arguments tdata {R} t.

(** The flattened matrix [self.hessian]: all parameters concatenated. *)
Definition FlattenedMatrix (R : Type) : Type := list R.

Definition tadd {R} `{Elem R} (a b : FlattenedMatrix R) : FlattenedMatrix R :=
  zip_with eadd a b.

Definition tdiv {R} `{Elem R} (a : FlattenedMatrix R) (n : Z) : FlattenedMatrix R :=
  map (fun x => ediv x n) a.

(** A tensor that may carry a gradient graph, such as the logits. *)
Record GradTensor (R : Type) : Type := mkGrad {
  values : list R;
  requires_grad : bool
}.
Arguments mkGrad {R} values requires_grad.
Arguments values {R} g.
Arguments requires_grad {R} g.

(** [Tensor.detach()]: the same values, cut from the graph. *)
Definition tensor_detach {R} (g : GradTensor R) : GradTensor R :=
  mkGrad (values g) false.

(** ** Model outputs *)

Inductive pyval (R : Type) : Type :=
| VTensor (g : GradTensor R)
| VNone
| VOpaque (n : nat).
Arguments VTensor {R} g.
Arguments VNone {R}.
Arguments VOpaque {R} n.

(** A [ModelOutput] is an ordered dictionary of named fields. *)
Definition ModelOutput (R : Type) : Type := list (string * pyval R).

Fixpoint field {R} (o : ModelOutput R) (name : string) : option (pyval R) :=
  match o with
  | [] => None
  | (k, v) :: rest => if String.eqb k name then Some v else field rest name
  end.

(** [outputs.name] *)
Definition getattr {R} (o : ModelOutput R) (name : string) : result (pyval R) :=
  match field o name with
  | Some v => Ok v
  | None => Raise (AttributeError name)
  end.

(** [outputs.name = v]: replaces the field where it stands, or appends it. *)
Fixpoint setattr {R} (o : ModelOutput R) (name : string) (v : pyval R) : ModelOutput R :=
  match o with
  | [] => [(name, v)]
  | (k, w) :: rest =>
      if String.eqb k name then (k, v) :: rest else (k, w) :: setattr rest name v
  end.

(** [value.detach()] *)
Definition detach {R} (v : pyval R) : result (pyval R) :=
  match v with
  | VTensor g => Ok (VTensor (tensor_detach g))
  | _ => Raise (AttributeError "detach")
  end.

(** ** ArchitectureTensor *)

(** Modelled from the spec: [ArchitectureTensor] of
    [src/arithmetics/weights_wrapper.py], which is not part of the sources
    at hand.  The parameter structure is the ordered list of the shapes of
    the model's trainable parameters. *)
Definition ArchitectureTensor : Type := list shape.

Definition arch_size (arch : ArchitectureTensor) : nat :=
  foldr (fun s n => (numel s + n)%nat) 0%nat arch.

(** Modelled from the spec: [ArchitectureTensor.zeros], the zero matrix of
    the parameter structure. *)
Definition zeros {R} `{Elem R} (arch : ArchitectureTensor) : FlattenedMatrix R :=
  replicate (arch_size arch) ezero.

Definition shape_eqb (a b : shape) : bool := bool_decide (a = b).

(** One tensor fits one entry of the structure when it has the entry's
    shape (and, as every tensor does, as many elements as its shape says). *)
Definition fits {R} (s : shape) (t : Tensor R) : bool :=
  shape_eqb s (tshape t) && Nat.eqb (length (tdata t)) (numel s).

Fixpoint fits_all {R} (arch : ArchitectureTensor) (ts : list (Tensor R)) : bool :=
  match arch, ts with
  | [], [] => true
  | s :: arch', t :: ts' => fits s t && fits_all arch' ts'
  | _, _ => false
  end.

(** Modelled from the spec: [ArchitectureTensor.to_tensor], the flatten
    step.  It needs one tensor per parameter, in order, with matching
    shape, and raises otherwise. *)
Definition to_tensor {R} (arch : ArchitectureTensor) (ts : list (Tensor R))
  : result (FlattenedMatrix R) :=
  if fits_all arch ts then Ok (concat (map tdata ts)) else Raise ShapeError.

(** ** Collaborators *)

(** What the module imports and calls without defining it: the model type
    with its parameter structure, the curvature formula [hess] of
    [computation/fisher.py], and the forward pass that the pipeline's own
    [_forward] runs.  The forward pass sees whether gradient tracking is
    enabled when it runs. *)
Class Collaborators (R : Type) : Type := {
  Model : Type;
  Item : Type;
  Prediction : Type;
  parameters : Model -> ArchitectureTensor;
  hess : Model -> pyval R -> result (list (Tensor R));
  model_forward : Model -> bool -> list Item -> result (ModelOutput R);
  postprocess : ModelOutput R -> list Prediction
}.

(** ** class HessianCallback *)

Record HessianCallback {R} `{Collaborators R} : Type := mkHC {
  hc_model : Model;
  arch : ArchitectureTensor;
  hessian : FlattenedMatrix R;
  num_samples : Z
}.
Arguments HessianCallback R {_}.

Section HessianCallbackMethods.
Context {R : Type} {elem : Elem R} {collab : Collaborators R}.

(** [HessianCallback.__init__] *)
Definition HessianCallback_init (model : Model) : HessianCallback R :=
  let a := parameters model in
  {| hc_model := model; arch := a; hessian := zeros a; num_samples := 0 |}.

(** [self.num_samples += 1] *)
Definition counted (self : HessianCallback R) : HessianCallback R :=
  {| hc_model := hc_model self; arch := arch self;
     hessian := hessian self; num_samples := num_samples self + 1 |}.

(** [self.hessian += t] *)
Definition summed (self : HessianCallback R) (t : FlattenedMatrix R)
  : HessianCallback R :=
  {| hc_model := hc_model self; arch := arch self;
     hessian := tadd (hessian self) t; num_samples := num_samples self |}.

(** [HessianCallback.add_sample]: the counter is bumped first, then the
    sample is flattened and added in place. *)
Definition add_sample (sample_hessian : list (Tensor R))
  : M (HessianCallback R) unit :=
  modify counted ;;;
  self <- get ;;
  t <- lift (to_tensor (arch self) sample_hessian) ;;
  put (summed self t).

(** [HessianCallback.get_hessian]: [self.hessian / self.num_samples],
    with no test of the divisor. *)
Definition get_hessian : M (HessianCallback R) (FlattenedMatrix R) :=
  self <- get ;;
  ret (tdiv (hessian self) (num_samples self)).

End HessianCallbackMethods.

(** ** add_callback *)

(** The arguments of a call: [*args] and [**kwargs]. *)
Record call_args (V : Type) : Type := mkArgs {
  args : list V;
  kwargs : list (string * V)
}.
Arguments mkArgs {V} args kwargs.
Arguments args {V} c.
Arguments kwargs {V} c.

Section AddCallback.
Context {St Obj Args Out : Type}.

(** What can be passed as [func]: a plain function, or a bound method
    ([types.MethodType]) that holds its function and its [self]. *)
Inductive callable : Type :=
| Function (f : Obj -> Args -> M St Out)
| Method (f : Obj -> Args -> M St Out) (self : Obj).

(** [func.__func__]: only a bound method has the attribute. *)
Definition dunder_func (func : callable) : result (Obj -> Args -> M St Out) :=
  match func with
  | Method f _ => Ok f
  | Function _ => Raise (AttributeError "__func__")
  end.

(** A script that calls [g] once per entry, in order. *)
Fixpoint call_each (g : Obj -> Args -> M St Out) (calls : list (Obj * Args))
  : M St (list Out) :=
  match calls with
  | [] => ret []
  | (self, a) :: rest =>
      o <- g self a ;;
      os <- call_each g rest ;;
      ret (o :: os)
  end.
End AddCallback.
Arguments callable : clear implicits.

(** A keyword argument of that name is among [**kwargs]. *)
Definition has_keyword {V} (name : string) (keywords : list (string * V)) : bool :=
  existsb (fun kv => String.eqb (fst kv) name) keywords.

Section NewFunc.
Context {St Obj V Out : Type}.

(** [add_callback(func, callback)] returns the closure
    [new_func(self, *args, **kwargs)].  Its first parameter is named
    [self], so a call that also passes a keyword argument named [self]
    raises TypeError when the arguments are bound, before the body runs;
    the attribute [__func__] is read when the body runs. *)
Definition add_callback (func : callable St Obj (call_args V) Out)
           (callback : Out -> M St unit)
  : Obj -> call_args V -> M St Out :=
  fun self a =>
    if has_keyword "self" (kwargs a) then raise TypeError
    else
      f <- lift (dunder_func func) ;;
      outputs <- f self a ;;
      callback outputs ;;;
      ret outputs.
End NewFunc.

(** Observation of calls, for statements that count them: the observed
    version of a procedure behaves as the procedure on the store and adds
    one event to a log beside it each time it runs. *)
Inductive event (Obj Args Out : Type) : Type :=
| EvForward (self : Obj) (a : Args)
| EvCallback (outputs : Out).
Arguments EvForward {Obj Args Out} self a.
Arguments EvCallback {Obj Args Out} outputs.

Definition logged {St Ev A} (ev : Ev) (c : M St A) : M (St * list Ev) A :=
  fun '(s, log) => let '(r, s') := c s in (r, (s', log ++ [ev])).

Definition observe_forward {St Obj Args Out} (f : Obj -> Args -> M St Out)
  : Obj -> Args -> M (St * list (event Obj Args Out)) Out :=
  fun self a => logged (EvForward self a) (f self a).

Definition observe_callback {St Obj Args Out} (cb : Out -> M St unit)
  : Out -> M (St * list (event Obj Args Out)) unit :=
  fun o => logged (EvCallback o) (cb o).

(** The observed version of what is passed as [func]. *)
Definition observe_callable {St Obj Args Out} (func : callable St Obj Args Out)
  : callable (St * list (event Obj Args Out)) Obj Args Out :=
  match func with
  | Function f => Function (observe_forward f)
  | Method f x => Method (observe_forward f) x
  end.

(** The log that [n] calls leave when every call runs the inner procedure
    and then the callback. *)
Definition expected_log {Obj Args Out} (calls : list (Obj * Args)) (outs : list Out)
  : list (event Obj Args Out) :=
  concat (zip_with (fun c o => [EvForward (fst c) (snd c); EvCallback o]) calls outs).

Definition is_callback_event {Obj Args Out} (ev : event Obj Args Out) : bool :=
  match ev with EvCallback _ => true | EvForward _ _ => false end.

(** ** The pipeline and its store *)

(** The one pipeline object of a run; [self] of its methods. *)
Inductive objref : Type := pipe_ref.

(** Function values, as data: the pipeline class's own [_forward], and the
    closures [new_func] that [add_callback] makes, which hold the wrapped
    [func] and the [HessianCallback] object given as [callback]. *)
Inductive pyfunction : Type :=
| forward_impl
| new_func (func : pycallable) (callback : nat)
with pycallable : Type :=
| PlainFunction (f : pyfunction)
| BoundMethod (f : pyfunction) (self : objref).

(** [pipe.get_inference_context]: the pipeline's own selector (gradients
    off), or [lambda *_: torch.enable_grad]. *)
Inductive context_selector : Type :=
| default_inference_context
| enable_grad_lambda.

Definition inference_context (sel : context_selector) : bool :=
  match sel with
  | default_inference_context => false
  | enable_grad_lambda => true
  end.

Record Pipeline {R} `{Collaborators R} : Type := mkPipeline {
  model : Model;
  get_inference_context : context_selector;
  _forward : pycallable
}.
Arguments Pipeline R {_}.

(** The store: the pipeline, the [HessianCallback] objects and the outputs
    objects made so far (an object's reference is its index), and the
    global gradient mode of the tensor library. *)
Record World {R} `{Collaborators R} : Type := mkWorld {
  pipe : Pipeline R;
  callbacks : list (HessianCallback R);
  outputs_heap : list (ModelOutput R);
  grad_mode : bool
}.
Arguments World R {_}.

Section Driver.
Context {R : Type} {elem : Elem R} {collab : Collaborators R}.

Definition set_pipe (w : World R) (p : Pipeline R) : World R :=
  {| pipe := p; callbacks := callbacks w;
     outputs_heap := outputs_heap w; grad_mode := grad_mode w |}.
Definition set_callbacks (w : World R) (cs : list (HessianCallback R)) : World R :=
  {| pipe := pipe w; callbacks := cs;
     outputs_heap := outputs_heap w; grad_mode := grad_mode w |}.
Definition set_outputs_heap (w : World R) (os : list (ModelOutput R)) : World R :=
  {| pipe := pipe w; callbacks := callbacks w;
     outputs_heap := os; grad_mode := grad_mode w |}.
Definition set_grad_mode (w : World R) (b : bool) : World R :=
  {| pipe := pipe w; callbacks := callbacks w;
     outputs_heap := outputs_heap w; grad_mode := b |}.

(** A new [HessianCallback] object in the store. *)
Definition new_callback (c : HessianCallback R) : M (World R) nat :=
  fun w => (Ok (length (callbacks w)), set_callbacks w (callbacks w ++ [c])).

(** A method of [HessianCallback], run on the object behind a reference. *)
Definition on_callback {A} (self : nat) (m : M (HessianCallback R) A)
  : M (World R) A :=
  fun w => match callbacks w !! self with
           | None => (Raise InvalidReference, w)
           | Some c => let '(r, c') := m c in
                       (r, set_callbacks w (<[self := c']> (callbacks w)))
           end.

(** A new outputs object in the store. *)
Definition new_outputs (o : ModelOutput R) : M (World R) nat :=
  fun w => (Ok (length (outputs_heap w)),
            set_outputs_heap w (outputs_heap w ++ [o])).

Definition read_outputs (outputs : nat) : M (World R) (ModelOutput R) :=
  fun w => match outputs_heap w !! outputs with
           | None => (Raise InvalidReference, w)
           | Some o => (Ok o, w)
           end.

(** [outputs.name] through the reference. *)
Definition outputs_getattr (outputs : nat) (name : string) : M (World R) (pyval R) :=
  o <- read_outputs outputs ;;
  lift (getattr o name).

(** [outputs.name = v] through the reference: the object is changed in
    place, every holder of the reference sees it. *)
Definition outputs_setattr (outputs : nat) (name : string) (v : pyval R)
  : M (World R) unit :=
  o <- read_outputs outputs ;;
  modify (fun w => set_outputs_heap w (<[outputs := setattr o name v]> (outputs_heap w))).

(** [HessianCallback.__call__(self, outputs)] *)
Definition HessianCallback_call (self : nat) (outputs : nat) : M (World R) unit :=
  self_model <- on_callback self (me <- get ;; ret (hc_model me)) ;;
  logits <- outputs_getattr outputs "logits" ;;
  H <- lift (hess self_model logits) ;;
  on_callback self (add_sample H) ;;;
  logits <- outputs_getattr outputs "logits" ;;
  detached <- lift (detach logits) ;;
  outputs_setattr outputs "logits" detached.

(** The pipeline class's own [_forward(self, model_inputs)]: it runs the
    model on the batch under the current gradient mode and returns a new
    outputs object. *)
Definition Pipeline_forward_impl (self : objref) (a : call_args (list Item))
  : M (World R) nat :=
  match args a, kwargs a with
  | [model_inputs], [] =>
      w <- get ;;
      o <- lift (model_forward (model (pipe w)) (grad_mode w) model_inputs) ;;
      new_outputs o
  | _, _ => raise TypeError
  end.

(** The meaning of the function values of the store. *)
Fixpoint call_function (f : pyfunction)
  : objref -> call_args (list Item) -> M (World R) nat :=
  match f with
  | forward_impl => Pipeline_forward_impl
  | new_func func callback =>
      add_callback (denote func) (HessianCallback_call callback)
  end
with denote (c : pycallable)
  : callable (World R) objref (call_args (list Item)) nat :=
  match c with
  | PlainFunction f => Function (call_function f)
  | BoundMethod f self => Method (call_function f) self
  end.

(** A call of the callable found in an attribute: a bound
    method passes its [self]; a plain function would take the first
    positional argument for [self], which no batch is. *)
Definition call_callable (c : pycallable) (a : call_args (list Item))
  : M (World R) nat :=
  match c with
  | BoundMethod f self => call_function f self a
  | PlainFunction _ => raise TypeError
  end.

(** [with ctx(): body]: the gradient mode is set for the body and put
    back when the body returns or raises. *)
Definition with_grad_mode {A} (ctx : bool) (body : M (World R) A) : M (World R) A :=
  fun w =>
    let old := grad_mode w in
    let '(r, w') := body (set_grad_mode w ctx) in
    (r, set_grad_mode w' old).

(** [Pipeline.forward] of the pipeline library: one call of
    [self._forward] on one batch, under the context that
    [self.get_inference_context()] selects. *)
Definition Pipeline_forward (model_inputs : list Item) : M (World R) nat :=
  w <- get ;;
  with_grad_mode (inference_context (get_inference_context (pipe w)))
    (w <- get ;;
     call_callable (_forward (pipe w)) (mkArgs [model_inputs] [])).

(** The batches of a dataset, [batch_size] items each (the last one may
    be shorter). *)
Fixpoint batches_aux (fuel batch_size : nat) (dataset : list Item) : list (list Item) :=
  match fuel with
  | O => []
  | S fuel' =>
      match dataset with
      | [] => []
      | _ => take batch_size dataset
               :: batches_aux fuel' batch_size (drop batch_size dataset)
      end
  end.
Definition batches (batch_size : nat) (dataset : list Item) : list (list Item) :=
  batches_aux (length dataset) batch_size dataset.

Fixpoint run_batches (bs : list (list Item)) : M (World R) (list Prediction) :=
  match bs with
  | [] => ret []
  | b :: rest =>
      outputs <- Pipeline_forward b ;;
      o <- read_outputs outputs ;;
      preds <- run_batches rest ;;
      ret (postprocess o ++ preds)
  end.

(** [list(pipe(dataset, batch_size=n))]: every batch goes through
    [Pipeline.forward], in order, and the predictions are collected. *)
Definition Pipeline_call (dataset : list Item) (batch_size : nat)
  : M (World R) (list Prediction) :=
  run_batches (batches batch_size dataset).

Definition set_get_inference_context (p : Pipeline R) (sel : context_selector)
  : Pipeline R :=
  {| model := model p; get_inference_context := sel; _forward := _forward p |}.
Definition set__forward (p : Pipeline R) (c : pycallable) : Pipeline R :=
  {| model := model p; get_inference_context := get_inference_context p;
     _forward := c |}.

(** [fisher_matrix(pipe, dataset)] *)
Definition fisher_matrix (pipe_ : objref) (dataset : list Item)
  : M (World R) (FlattenedMatrix R) :=
  w <- get ;;
  let model_ := model (pipe w) in
  hess_callback <- new_callback (HessianCallback_init model_) ;;
  modify (fun w => set_pipe w
            (set_get_inference_context (pipe w) enable_grad_lambda)) ;;;
  w <- get ;;
  let wrapped := new_func (_forward (pipe w)) hess_callback in
  modify (fun w => set_pipe w
            (set__forward (pipe w) (BoundMethod wrapped pipe_))) ;;;
  predicted <- Pipeline_call dataset 1 ;;
  hessian_ <- on_callback hess_callback get_hessian ;;
  ret hessian_.
End Driver.

(** ** Sequences of operations and reference values *)

Section Reference.
Context {R : Type} {elem : Elem R} {collab : Collaborators R}.

(** The samples folded one after the other; the first error stops the
    sequence, as it stops the driver. *)
Fixpoint add_samples (samples : list (list (Tensor R)))
  : M (HessianCallback R) unit :=
  match samples with
  | [] => ret tt
  | s :: rest => add_sample s ;;; add_samples rest
  end.

(** The operations a holder of the accumulator can call. *)
Inductive accumulator_op : Type :=
| OpAddSample (sample_hessian : list (Tensor R))
| OpGetHessian.

Definition is_add_sample (o : accumulator_op) : bool :=
  match o with OpAddSample _ => true | OpGetHessian => false end.

(** The accumulator after one call, whether the call returned or raised. *)
Definition after_op (c : HessianCallback R) (o : accumulator_op)
  : HessianCallback R :=
  match o with
  | OpAddSample s => snd (add_sample s c)
  | OpGetHessian => snd (get_hessian c)
  end.

Definition after_ops (c : HessianCallback R) (ops : list accumulator_op)
  : HessianCallback R :=
  foldl after_op c ops.

(** The flatten step on every sample of a list. *)
Fixpoint flatten_all (a : ArchitectureTensor) (samples : list (list (Tensor R)))
  : result (list (FlattenedMatrix R)) :=
  match samples with
  | [] => Ok []
  | s :: rest =>
      rbind (to_tensor a s) (fun t =>
      rbind (flatten_all a rest) (fun ts => Ok (t :: ts)))
  end.

(** The running sum of flattened samples, taken from the zero matrix in the
    order of the list, divided by their number: what the accumulator
    computes. *)
Definition running_mean (a : ArchitectureTensor) (ts : list (FlattenedMatrix R))
  : FlattenedMatrix R :=
  tdiv (foldl tadd (zeros a) ts) (Z.of_nat (length ts)).

(** The elements that the samples hold at position [i]. *)
Definition column (i : nat) (ts : list (FlattenedMatrix R)) : list R :=
  omap (fun t => t !! i) ts.

(** The element-wise mean, in the words of the specification: at every
    position of the parameter structure, the sum of the elements that the
    samples hold there divided by the number of samples. *)
Definition elementwise_mean (a : ArchitectureTensor) (ts : list (FlattenedMatrix R))
  : FlattenedMatrix R :=
  map (fun i => ediv (foldl eadd ezero (column i ts)) (Z.of_nat (length ts)))
      (seq 0 (arch_size a)).

(** What one dataset item goes through when the instrumented pipeline
    processes it alone, with gradients enabled: the forward pass on the
    batch of that one item, the curvature of its logits, the flatten
    step, and the detached logits written back.  The result is the
    outputs object as it is left and the flattened sample. *)
Definition process_item (m : Model) (x : Item)
  : result (ModelOutput R * FlattenedMatrix R) :=
  rbind (model_forward m true [x]) (fun o =>
  rbind (getattr o "logits") (fun l =>
  rbind (hess m l) (fun H =>
  rbind (to_tensor (parameters m) H) (fun t =>
  rbind (detach l) (fun d =>
  Ok (setattr o "logits" d, t)))))).

Fixpoint process_items (m : Model) (xs : list Item)
  : result (list (ModelOutput R * FlattenedMatrix R)) :=
  match xs with
  | [] => Ok []
  | x :: rest =>
      rbind (process_item m x) (fun p =>
      rbind (process_items m rest) (fun ps => Ok (p :: ps)))
  end.
End Reference.
Arguments accumulator_op R : clear implicits.

(** Two states of an outputs object with the same fields in the same
    order and the same value in every field other than [logits]. *)
Definition same_but_logits {R} (o o' : ModelOutput R) : Prop :=
  map fst o' = map fst o
  /\ forall name : string, name <> "logits"%string -> field o' name = field o name.

(** The logits of [o'] are the logits of [o], same values, cut from the
    gradient graph. *)
Definition logits_detached {R} (o o' : ModelOutput R) : Prop :=
  exists g : GradTensor R,
    field o "logits" = Some (VTensor g)
    /\ field o' "logits" = Some (VTensor (mkGrad (values g) false)).

(** What a run [rw] of the callback on the outputs object [outputs],
    started in the store [w], may have changed: nothing of the pipeline or
    of the gradient mode, no other outputs object, and of the object itself
    only [logits]. *)
Definition callback_frame {R} `{Collaborators R}
           (outputs : nat) (w : World R) (rw : result unit * World R) : Prop :=
  pipe (snd rw) = pipe w
  /\ grad_mode (snd rw) = grad_mode w
  /\ length (outputs_heap (snd rw)) = length (outputs_heap w)
  /\ (forall other : nat, other <> outputs ->
        outputs_heap (snd rw) !! other = outputs_heap w !! other)
  /\ (forall o, outputs_heap w !! outputs = Some o ->
        exists o', outputs_heap (snd rw) !! outputs = Some o'
          /\ same_but_logits o o'
          /\ (fst rw = Ok tt -> logits_detached o o')
          /\ (fst rw <> Ok tt -> o' = o)).

Section DriverReference.
Context {R : Type} {elem : Elem R} {collab : Collaborators R}.

(** The store as lines 58 to 63 of [fisher_matrix] leave it: a new
    accumulator at the end of the object list, the selector replaced by
    the lambda, [_forward] replaced by the bound wrapper around what
    [pipe._forward] was. *)
Definition instrumented (p : objref) (w : World R) : World R :=
  {| pipe := {| model := model (pipe w);
                get_inference_context := enable_grad_lambda;
                _forward := BoundMethod
                              (new_func (_forward (pipe w)) (length (callbacks w)))
                              p |};
     callbacks := callbacks w ++ [HessianCallback_init (model (pipe w))];
     outputs_heap := outputs_heap w;
     grad_mode := grad_mode w |}.

(** The accumulator after the flattened samples [ts] have been folded,
    one [add_sample] each. *)
Definition folded_over (c : HessianCallback R) (ts : list (FlattenedMatrix R))
  : HessianCallback R :=
  foldl (fun c t => summed (counted c) t) c ts.

(** What no call made through the pipeline changes: the pipeline object,
    the gradient mode once the call is over, and the model and parameter
    structure each accumulator is bound to. *)
Definition evolves (w w' : World R) : Prop :=
  pipe w' = pipe w
  /\ grad_mode w' = grad_mode w
  /\ forall (i : nat) (c : HessianCallback R),
       callbacks w !! i = Some c ->
       exists c', callbacks w' !! i = Some c'
                  /\ hc_model c' = hc_model c /\ arch c' = arch c.
End DriverReference.

(** ** Instances used in the examples *)

(** Double-precision floating-point elements, as in a [float64] tensor;
    the integer divisor is converted to the nearest float first. *)
Definition float_of_Z (n : Z) : float :=
  SF2Prim (binary_normalize prec emax n 0 false).

Definition float_elem : Elem float :=
  {| ezero := PrimFloat.zero;
     eadd := PrimFloat.add;
     ediv := fun x n => PrimFloat.div x (float_of_Z n) |}.

(** A small model for the examples.  A dataset item is the list of values
    its logits will hold; the forward pass returns the logits (attached to
    the graph when gradients are enabled) and one more field.  The
    curvature formula needs attached logits; on a one-value sample it gives
    one constant tensor per parameter, on an empty one it raises, on a
    longer one it returns no tensor at all. *)
Definition toy_collaborators (R : Type) : Collaborators R :=
  {| Model := ArchitectureTensor;
     Item := list R;
     Prediction := nat;
     parameters := fun m => m;
     hess := fun m v =>
       match v with
       | VTensor g =>
           if requires_grad g then
             match values g with
             | [] => Raise (Raised 2)
             | [x] => Ok (map (fun s => mkTensor s (replicate (numel s) x)) m)
             | _ => Ok []
             end
           else Raise (Raised 1)
       | _ => Raise TypeError
       end;
     model_forward := fun m grad batch =>
       Ok [("logits"%string, VTensor (mkGrad (concat batch) grad));
           ("hidden_states"%string, VOpaque (length batch))];
     postprocess := fun o => [length o] |}.

(** A pipeline that nobody has touched yet. *)
Definition fresh_world {R} `{Collaborators R} (m : Model) : World R :=
  {| pipe := {| model := m;
                get_inference_context := default_inference_context;
                _forward := BoundMethod forward_impl pipe_ref |};
     callbacks := [];
     outputs_heap := [];
     grad_mode := true |}.

(** The scenario model: two parameters of shapes (2,) and (3,2). *)
Definition toy_model : ArchitectureTensor := [[2%nat]; [3%nat; 2%nat]].

(** Exact rational elements: arithmetic without rounding. *)
Definition Qc_elem : Elem Qc :=
  {| ezero := Q2Qc 0;
     eadd := Qcplus;
     ediv := fun x n => Qcdiv x (Q2Qc (inject_Z n)) |}.

(** One sample of the small model: every element is [v]. *)
Definition constant_sample {R} (v : R) : list (Tensor R) :=
  [mkTensor [2%nat] [v; v]; mkTensor [3%nat; 2%nat] [v; v; v; v; v; v]].

(** Values of the examples, on the small model. *)
Section ExampleValues.
#[local] Existing Instance float_elem.
#[local] Instance float_toy : Collaborators float := toy_collaborators float.

Definition float_accumulator : HessianCallback float :=
  HessianCallback_init toy_model.

Definition float_world : World float := fresh_world toy_model.

Definition big : float := 0x1p100%float.

(** The same three samples in two orders. *)
Definition samples_big_one_minus : list (list (Tensor float)) :=
  [constant_sample big; constant_sample 1%float; constant_sample (- big)%float].
Definition samples_big_minus_one : list (list (Tensor float)) :=
  [constant_sample big; constant_sample (- big)%float; constant_sample 1%float].

(** An outputs object with attached logits, and a store that holds it
    beside one new accumulator. *)
Definition attached_outputs : ModelOutput float :=
  [("logits"%string, VTensor (mkGrad [2%float] true));
   ("hidden_states"%string, VOpaque 1)].

(** One item that goes through, with what it leaves, and the outputs of
    an item on which the curvature formula raises. *)
Definition item_one_processed : list (ModelOutput float * FlattenedMatrix float) :=
  [([("logits"%string, VTensor (mkGrad [1%float] false));
     ("hidden_states"%string, VOpaque 1)],
    replicate 8 1%float)].

Definition empty_logits_outputs : ModelOutput float :=
  [("logits"%string, VTensor (mkGrad [] true));
   ("hidden_states"%string, VOpaque 1)].

Definition world_with_outputs : World float :=
  {| pipe := pipe (instrumented pipe_ref float_world);
     callbacks := [float_accumulator];
     outputs_heap := [attached_outputs];
     grad_mode := true |}.

(** The first element of a returned matrix is zero. *)
Definition head_is_zero (r : result (FlattenedMatrix float)) : bool :=
  match r with
  | Ok (v :: _) => PrimFloat.eqb v 0%float
  | _ => false
  end.
End ExampleValues.

(** The values of the scenario with exact elements: three samples whose
    elements are 1, 2 and 3. *)
Section ExactValues.
#[local] Existing Instance Qc_elem.
#[local] Instance Qc_toy : Collaborators Qc := toy_collaborators Qc.

Definition q (n : Z) : Qc := Q2Qc (inject_Z n).

Definition scenario_samples : list (list (Tensor Qc)) :=
  [constant_sample (q 1); constant_sample (q 2); constant_sample (q 3)].

Definition scenario_flattened : list (FlattenedMatrix Qc) :=
  [replicate 8 (q 1); replicate 8 (q 2); replicate 8 (q 3)].

Definition scenario_accumulator : HessianCallback Qc :=
  HessianCallback_init toy_model.

Definition scenario_world : World Qc := fresh_world toy_model.

(** What the three items leave: their outputs objects, logits detached,
    and their flattened curvatures. *)
Definition scenario_processed : list (ModelOutput Qc * FlattenedMatrix Qc) :=
  map (fun v => ([("logits"%string, VTensor (mkGrad [v] false));
                  ("hidden_states"%string, VOpaque 1)],
                 replicate 8 v))
      [q 1; q 2; q 3].
End ExactValues.

(** A procedure and a callback on a counter, for the examples of
    [add_callback]: the procedure returns the number of its arguments and
    adds one to the counter, the callback adds ten times the outputs. *)
Definition count_args : unit -> call_args nat -> M nat nat :=
  fun _ a s => (Ok (length (args a) + length (kwargs a))%nat, S s).

Definition note_outputs : nat -> M nat unit :=
  fun o s => (Ok tt, (s + 10 * o)%nat).

Definition two_args_one_keyword : call_args nat :=
  mkArgs [1%nat; 2%nat] [("k"%string, 3%nat)].

Definition two_calls : list (unit * call_args nat) :=
  [(tt, mkArgs [1%nat] []); (tt, two_args_one_keyword)].

(** A call that passes a keyword argument named [self]. *)
Definition self_keyword_args : call_args nat :=
  mkArgs [1%nat] [("self"%string, 2%nat)].

(** ** Values for the failure cases *)

Section FailureReference.
Context {R : Type} {elem : Elem R} {collab : Collaborators R}.

(** The store once the instrumented pipeline has processed items that all
    went through and left [ps]: the accumulator of the run has folded their
    flattened curvatures, their outputs objects follow the earlier ones. *)
Definition after_items (p : objref) (w : World R)
           (ps : list (ModelOutput R * FlattenedMatrix R)) : World R :=
  set_outputs_heap
    (set_callbacks (instrumented p w)
       (callbacks w
          ++ [folded_over (HessianCallback_init (model (pipe w))) (map snd ps)]))
    (outputs_heap w ++ map fst ps).

(** The flattened samples of those of a list that flatten, in order. *)
Definition flattened_valid (a : ArchitectureTensor) (samples : list (list (Tensor R)))
  : list (FlattenedMatrix R) :=
  omap (fun s => match to_tensor a s with
                 | Ok t => Some t
                 | Raise _ => None
                 end) samples.

(** What a run that feeds the accumulator [cb] alone leaves of a store:
    the pipeline, the gradient mode and every other accumulator are as
    they were, the accumulator [cb] is still there, and the outputs
    objects are the earlier ones followed by new ones. *)
Definition run_frame (cb : nat) (w w' : World R) : Prop :=
  pipe w' = pipe w
  /\ grad_mode w' = grad_mode w
  /\ (forall i : nat, i <> cb -> callbacks w' !! i = callbacks w !! i)
  /\ is_Some (callbacks w' !! cb)
  /\ exists new : list (ModelOutput R), outputs_heap w' = outputs_heap w ++ new.

(** An outputs object that the instrumented pipeline leaves in the store
    for a batch: the object the model returned for that batch with
    gradients enabled, either as the model returned it (the callback
    raised before its last line) or with its logits replaced by their
    detached copy. *)
Definition outputs_of_batch (m : Model) (batch : list Item) (o : ModelOutput R)
  : Prop :=
  exists o0 : ModelOutput R,
    model_forward m true batch = Ok o0
    /\ (o = o0
        \/ exists l d : pyval R,
             getattr o0 "logits" = Ok l /\ detach l = Ok d
             /\ o = setattr o0 "logits" d).
End FailureReference.

(** A second small model for the examples of failures.  Its forward pass
    raises on a batch without values and returns outputs without logits
    on a batch of three values or more; everything else is as in the first
    small model. *)
Definition picky_collaborators (R : Type) : Collaborators R :=
  {| Model := ArchitectureTensor;
     Item := list R;
     Prediction := nat;
     parameters := fun m => m;
     hess := @hess R (toy_collaborators R);
     model_forward := fun m grad batch =>
       match concat batch with
       | [] => Raise (Raised 7)
       | _ :: _ :: _ :: _ =>
           Ok [("hidden_states"%string, VOpaque (length batch))]
       | _ => @model_forward R (toy_collaborators R) m grad batch
       end;
     postprocess := fun o => [length o] |}.

Section FailureValues.
#[local] Existing Instance float_elem.
#[local] Instance float_picky : Collaborators float := picky_collaborators float.

Definition picky_world : World float := fresh_world toy_model.

(** The outputs of the item [[2; 3]], on which the curvature formula
    returns no tensor, and of an item of three values. *)
Definition two_values_outputs : ModelOutput float :=
  [("logits"%string, VTensor (mkGrad [2%float; 3%float] true));
   ("hidden_states"%string, VOpaque 1)].

Definition no_logits_outputs : ModelOutput float :=
  [("hidden_states"%string, VOpaque 1)].

(** A pipeline that still has its own [_forward], in a store that holds
    an accumulator and an outputs object of earlier work, with gradients
    globally disabled. *)
Definition used_store_world : World float :=
  {| pipe := pipe (fresh_world toy_model);
     callbacks := [counted (HessianCallback_init toy_model)];
     outputs_heap := [no_logits_outputs];
     grad_mode := false |}.

(** A pipeline whose [_forward] attribute holds a plain function. *)
Definition plain_function_world : World float :=
  {| pipe := {| model := toy_model;
                get_inference_context := default_inference_context;
                _forward := PlainFunction forward_impl |};
     callbacks := [];
     outputs_heap := [];
     grad_mode := true |}.
End FailureValues.

(** A third small model, whose curvature formula works from the values of
    the logits alone and so takes detached logits as well as attached
    ones; everything else is as in the first small model. *)
Definition lenient_collaborators (R : Type) : Collaborators R :=
  {| Model := ArchitectureTensor;
     Item := list R;
     Prediction := nat;
     parameters := fun m => m;
     hess := fun m v =>
       match v with
       | VTensor g =>
           match values g with
           | [x] => Ok (map (fun s => mkTensor s (replicate (numel s) x)) m)
           | _ => Raise (Raised 2)
           end
       | _ => Raise TypeError
       end;
     model_forward := fun m grad batch =>
       @model_forward R (toy_collaborators R) m grad batch;
     postprocess := fun o => [length o] |}.

Section LenientValues.
#[local] Existing Instance float_elem.
#[local] Instance float_lenient : Collaborators float := lenient_collaborators float.

Definition lenient_world : World float := fresh_world toy_model.

(** An outputs object whose logits have been detached already, and a
    store that holds it beside one new accumulator. *)
Definition detached_outputs : ModelOutput float :=
  [("logits"%string, VTensor (mkGrad [2%float] false));
   ("hidden_states"%string, VOpaque 1)].

Definition detached_logits_world : World float :=
  {| pipe := pipe (fresh_world toy_model);
     callbacks := [HessianCallback_init toy_model];
     outputs_heap := [detached_outputs];
     grad_mode := true |}.
End LenientValues.

(** A procedure that takes no keyword argument: it counts its positional
    arguments, and raises TypeError when given a keyword, after it has
    touched the counter. *)
Definition count_positional : unit -> call_args nat -> M nat nat :=
  fun _ a s =>
    match kwargs a with
    | [] => (Ok (length (args a)), S s)
    | _ :: _ => (Raise TypeError, S s)
    end.

Definition three_calls : list (unit * call_args nat) :=
  [(tt, mkArgs [1%nat] []); (tt, two_args_one_keyword); (tt, mkArgs [] [])].

(** * Properties *)

(** ** The accumulator *)

Section AccumulatorFacts.
Context {R : Type} {elem : Elem R} {collab : Collaborators R}.

Lemma add_sample_unfold (sample : list (Tensor R)) (c : HessianCallback R) :
  add_sample sample c =
  match to_tensor (arch c) sample with
  | Ok t => (Ok tt, summed (counted c) t)
  | Raise e => (Raise e, counted c)
  end.
Proof.
  unfold add_sample, bind, modify, get, lift, put; simpl.
  destruct (to_tensor (arch c) sample); reflexivity.
Qed.

Lemma get_hessian_unfold (c : HessianCallback R) :
  get_hessian c = (Ok (tdiv (hessian c) (num_samples c)), c).
Proof. reflexivity. Qed.

Lemma after_op_num_samples (c : HessianCallback R) (o : accumulator_op R) :
  num_samples (after_op c o) =
  if is_add_sample o then num_samples c + 1 else num_samples c.
Proof.
  destruct o as [s|]; simpl; [|reflexivity].
  rewrite add_sample_unfold. destruct (to_tensor (arch c) s); reflexivity.
Qed.

Lemma after_ops_num_samples (ops : list (accumulator_op R)) (c : HessianCallback R) :
  num_samples (after_ops c ops) =
  num_samples c + Z.of_nat (length (filter (fun o => is_add_sample o = true) ops)).
Proof.
  unfold after_ops. revert c.
  induction ops as [|o ops IH]; intros c; simpl; [lia|].
  rewrite IH, after_op_num_samples.
  rewrite filter_cons. destruct (is_add_sample o) eqn:E.
  - rewrite decide_True by reflexivity. simpl. lia.
  - rewrite decide_False by discriminate. lia.
Qed.
End AccumulatorFacts.

Section MeanFacts.
Context {R : Type} {elem : Elem R} {collab : Collaborators R}.

Lemma add_samples_valid (samples : list (list (Tensor R)))
      (ts : list (FlattenedMatrix R)) (c : HessianCallback R) :
  flatten_all (arch c) samples = Ok ts ->
  add_samples samples c =
  (Ok tt, {| hc_model := hc_model c; arch := arch c;
             hessian := foldl tadd (hessian c) ts;
             num_samples := num_samples c + Z.of_nat (length ts) |}).
Proof.
  revert ts c. induction samples as [|s samples IH]; intros ts c Hts; simpl in *.
  - inversion Hts; subst; simpl. unfold ret. destruct c; simpl.
    f_equal. f_equal. lia.
  - destruct (to_tensor (arch c) s) as [t|e] eqn:Et; simpl in Hts; [|discriminate].
    destruct (flatten_all (arch c) samples) as [ts'|e] eqn:Ets; simpl in Hts;
      [|discriminate].
    inversion Hts; subst; clear Hts.
    unfold bind at 1. rewrite add_sample_unfold, Et.
    rewrite (IH ts') by exact Ets.
    cbn [hc_model arch hessian num_samples foldl length summed counted].
    f_equal. f_equal. lia.
Qed.

Lemma flatten_all_length (a : ArchitectureTensor) (samples : list (list (Tensor R)))
      (ts : list (FlattenedMatrix R)) :
  flatten_all a samples = Ok ts -> length ts = length samples.
Proof.
  revert ts. induction samples as [|s samples IH]; intros ts Hts; simpl in *.
  - inversion Hts; reflexivity.
  - destruct (to_tensor a s); simpl in Hts; [|discriminate].
    destruct (flatten_all a samples) as [ts'|]; simpl in Hts; [|discriminate].
    inversion Hts; subst; simpl. f_equal. apply IH. reflexivity.
Qed.

Lemma flatten_all_perm (a : ArchitectureTensor)
      (samples samples' : list (list (Tensor R))) :
  samples ≡ₚ samples' ->
  forall ts, flatten_all a samples = Ok ts ->
  exists ts', flatten_all a samples' = Ok ts' /\ ts ≡ₚ ts'.
Proof.
  induction 1 as [|s l l' Hp IH|s1 s2 l|l1 l2 l3 Hp1 IH1 Hp2 IH2]; intros ts Hts.
  - exists ts. split; [exact Hts|reflexivity].
  - simpl in *. destruct (to_tensor a s) as [t|]; simpl in *; [|discriminate].
    destruct (flatten_all a l) as [tl|] eqn:El; simpl in Hts; [|discriminate].
    inversion Hts; subst. destruct (IH tl eq_refl) as (tl' & -> & Hperm).
    exists (t :: tl'). split; [reflexivity|]. by constructor.
  - simpl in *.
    destruct (to_tensor a s2) as [t2|]; simpl in *; [|discriminate].
    destruct (to_tensor a s1) as [t1|]; simpl in *; [|discriminate].
    destruct (flatten_all a l) as [tl|]; simpl in *; [|discriminate].
    inversion Hts; subst. exists (t1 :: t2 :: tl). split; [reflexivity|].
    apply perm_swap.
  - destruct (IH1 ts Hts) as (ts1 & H1' & Hq1).
    destruct (IH2 ts1 H1') as (ts2 & H2' & Hq2).
    exists ts2. split; [exact H2'|]. by etrans.
Qed.

Lemma fits_all_length (a : ArchitectureTensor) (sample : list (Tensor R)) :
  fits_all a sample = true ->
  length (concat (map tdata sample)) = arch_size a.
Proof.
  revert sample. induction a as [|s a IH]; intros [|t sample] Hfit;
    simpl in *; try discriminate; [reflexivity|].
  apply andb_prop in Hfit as [Ht Hrest].
  unfold fits in Ht. apply andb_prop in Ht as [_ Hlen].
  apply Nat.eqb_eq in Hlen.
  rewrite length_app, Hlen. f_equal. by apply IH.
Qed.

Lemma to_tensor_flattens (a : ArchitectureTensor) (sample : list (Tensor R))
      (t : FlattenedMatrix R) :
  to_tensor a sample = Ok t ->
  t = concat (map tdata sample) /\ length t = arch_size a.
Proof.
  unfold to_tensor. destruct (fits_all a sample) eqn:Hfit; [|discriminate].
  intros Ht. inversion Ht; subst. split; [reflexivity|by apply fits_all_length].
Qed.

Lemma flatten_all_lengths (a : ArchitectureTensor) (samples : list (list (Tensor R)))
      (ts : list (FlattenedMatrix R)) :
  flatten_all a samples = Ok ts ->
  Forall (fun t => length t = arch_size a) ts.
Proof.
  revert ts. induction samples as [|s samples IH]; intros ts Hts; simpl in Hts.
  - inversion Hts. constructor.
  - destruct (to_tensor a s) as [t|] eqn:Et; simpl in Hts; [|discriminate].
    destruct (flatten_all a samples) as [ts'|]; simpl in Hts; [|discriminate].
    inversion Hts; subst. constructor; [|by apply IH].
    by apply to_tensor_flattens in Et as [_ ?].
Qed.

Lemma foldl_tadd_lookup (ts : list (FlattenedMatrix R)) :
  forall (z : FlattenedMatrix R) (i : nat) (zi : R),
    Forall (fun t => length t = length z) ts ->
    z !! i = Some zi ->
    foldl tadd z ts !! i = Some (foldl eadd zi (column i ts)).
Proof.
  induction ts as [|t ts IH]; intros z i zi Hlen Hz; [exact Hz|].
  inversion Hlen as [|? ? Ht Hrest]; subst.
  assert (Hi : (i < length t)%nat) by (rewrite Ht; by eapply lookup_lt_Some).
  destruct (lookup_lt_is_Some_2 t i Hi) as [ti Hti].
  cbn [foldl]. unfold column, FlattenedMatrix in *.
  cbn [omap list_omap]. rewrite Hti. cbn [foldl].
  apply IH.
  - unfold tadd. rewrite length_zip_with, Ht, Nat.min_id.
    exact Hrest.
  - unfold tadd. rewrite lookup_zip_with, Hz, Hti. reflexivity.
Qed.

(** The accumulator's running mean is the element-wise mean. *)
Lemma running_mean_elementwise (a : ArchitectureTensor)
      (ts : list (FlattenedMatrix R)) :
  Forall (fun t => length t = arch_size a) ts ->
  running_mean a ts = elementwise_mean a ts.
Proof.
  intros Hlen. unfold running_mean, elementwise_mean, tdiv.
  apply list_eq. intros i.
  change (map ?f ?l) with (f <$> l). rewrite !list_lookup_fmap.
  destruct (decide (i < arch_size a)%nat) as [Hi|Hi].
  - rewrite lookup_seq_lt by exact Hi. simpl.
    rewrite (foldl_tadd_lookup ts (zeros a) i ezero).
    + reflexivity.
    + unfold zeros. by rewrite length_replicate.
    + unfold zeros. by apply lookup_replicate_2.
  - rewrite (lookup_ge_None_2 (seq 0 (arch_size a))) by (rewrite length_seq; lia).
    rewrite lookup_ge_None_2; [reflexivity|].
    assert (Hsum : forall l z, length z = arch_size a ->
               Forall (fun t : FlattenedMatrix R => length t = arch_size a) l ->
               length (foldl tadd z l) = arch_size a).
    { induction l as [|t l IHl]; intros z Hz Hl; [exact Hz|].
      inversion Hl; subst. cbn [foldl]. apply IHl; [|assumption].
      unfold tadd. rewrite length_zip_with. lia. }
    rewrite Hsum; [lia| |exact Hlen].
    unfold zeros. by rewrite length_replicate.
Qed.

Section Exact.
Context `{!ExactAdd R}.

Lemma tadd_swap (z x y : FlattenedMatrix R) :
  tadd (tadd z x) y = tadd (tadd z y) x.
Proof.
  unfold tadd. revert x y.
  induction z as [|a z IH]; intros [|b x] [|c y]; simpl; try reflexivity.
  f_equal; [|apply IH].
  rewrite <- !eadd_assoc. f_equal. apply eadd_comm.
Qed.

Lemma foldl_tadd_perm (ts ts' : list (FlattenedMatrix R)) :
  ts ≡ₚ ts' -> forall z, foldl tadd z ts = foldl tadd z ts'.
Proof.
  induction 1 as [|t l l' Hp IH|t1 t2 l|l1 l2 l3 Hp1 IH1 Hp2 IH2];
    intros z; simpl.
  - reflexivity.
  - apply IH.
  - by rewrite tadd_swap.
  - by rewrite IH1.
Qed.
End Exact.

Lemma after_op_shape (c : HessianCallback R) (o : accumulator_op R) :
  arch (after_op c o) = arch c
  /\ (length (hessian c) = arch_size (arch c) ->
      length (hessian (after_op c o)) = arch_size (arch c)).
Proof.
  destruct o as [s|]; simpl; [|auto].
  rewrite add_sample_unfold.
  destruct (to_tensor (arch c) s) as [t|] eqn:Et; simpl; [|auto].
  split; [reflexivity|]. intros Hlen.
  apply to_tensor_flattens in Et as [_ Ht].
  unfold tadd. rewrite length_zip_with. lia.
Qed.

Lemma after_ops_shape (ops : list (accumulator_op R)) (c : HessianCallback R) :
  length (hessian c) = arch_size (arch c) ->
  arch (after_ops c ops) = arch c
  /\ length (hessian (after_ops c ops)) = arch_size (arch c).
Proof.
  unfold after_ops. revert c.
  induction ops as [|o ops IH]; intros c Hlen; simpl; [auto|].
  destruct (after_op_shape c o) as [Ha Hl].
  destruct (IH (after_op c o)) as [Ha' Hl']; [rewrite Ha; auto|].
  rewrite Ha', Hl', Ha. auto.
Qed.

(** C7: a new accumulator has counter 0 and the zero matrix of the
    model's parameter structure; every [add_sample] call leaves the
    counter one higher, and when the sample flattens it returns and
    leaves the running sum with the flattened sample (the concatenation of
    the per-parameter tensors) added element by element; after any
    sequence of calls from a new accumulator the counter is the number of
    [add_sample] calls made and the running sum still has the size of the
    parameter structure. *)
Theorem num_samples_counts_add_sample_calls (m : Model) :
  num_samples (HessianCallback_init m) = 0
  /\ hessian (HessianCallback_init m)
     = replicate (arch_size (parameters m)) ezero
  /\ (forall (c : HessianCallback R) (sample : list (Tensor R)),
        num_samples (snd (add_sample sample c)) = num_samples c + 1
        /\ forall t, to_tensor (arch c) sample = Ok t ->
             t = concat (map tdata sample)
             /\ fst (add_sample sample c) = Ok tt
             /\ hessian (snd (add_sample sample c))
                = zip_with eadd (hessian c) t)
  /\ (forall ops : list (accumulator_op R),
        num_samples (after_ops (HessianCallback_init m) ops)
        = Z.of_nat (length (filter (fun o => is_add_sample o = true) ops))
        /\ length (hessian (after_ops (HessianCallback_init m) ops))
           = arch_size (parameters m)).
Proof.
  split; [reflexivity|]. split; [reflexivity|]. split.
  - intros c sample. rewrite add_sample_unfold. split.
    + destruct (to_tensor (arch c) sample); reflexivity.
    + intros t Ht. rewrite Ht.
      apply to_tensor_flattens in Ht as [-> _]. repeat split.
  - intros ops. rewrite after_ops_num_samples. split; [simpl; lia|].
    apply (after_ops_shape ops (HessianCallback_init m)).
    simpl. unfold zeros. by rewrite length_replicate.
Qed.

(** C2 (amended): for every sequence of samples that all flatten, the
    result after folding them is the running sum of the flattened
    samples, accumulated from the zero matrix in fold order, divided
    element by element by their number; when element addition is exact
    (associative and commutative), every permutation of the fold order
    gives that same result. *)
Theorem get_hessian_is_mean_of_folds
        (m : Model) (samples : list (list (Tensor R)))
        (ts : list (FlattenedMatrix R)) :
  flatten_all (parameters m) samples = Ok ts ->
  fst ((add_samples samples ;;; get_hessian) (HessianCallback_init m))
  = Ok (elementwise_mean (parameters m) ts)
  /\ (ExactAdd R ->
      forall samples', samples' ≡ₚ samples ->
        fst ((add_samples samples' ;;; get_hessian) (HessianCallback_init m))
        = Ok (elementwise_mean (parameters m) ts)).
Proof.
  intros Hts.
  assert (Hrun : forall l tl, flatten_all (parameters m) l = Ok tl ->
            fst ((add_samples l ;;; get_hessian) (HessianCallback_init m))
            = Ok (running_mean (parameters m) tl)).
  { intros l tl Hl. unfold bind.
    rewrite (add_samples_valid l tl) by exact Hl.
    rewrite get_hessian_unfold. reflexivity. }
  rewrite <- (running_mean_elementwise (parameters m) ts)
    by (by eapply flatten_all_lengths).
  split; [by apply Hrun|].
  intros Hexact samples' Hperm.
  destruct (flatten_all_perm (parameters m) samples samples') with (ts := ts)
    as (ts' & Hts' & Hq); [by symmetry|exact Hts|].
  rewrite (Hrun samples' ts') by exact Hts'.
  unfold running_mean.
  rewrite (foldl_tadd_perm ts ts' Hq).
  by rewrite (Permutation_length Hq).
Qed.
End MeanFacts.

(** ** The wrapper made by add_callback *)

Section AddCallbackUnfold.
Context {St Obj V Out : Type}.
Implicit Types (f : Obj -> call_args V -> M St Out) (cb : Out -> M St unit).

Lemma add_callback_method f (x : Obj) cb (self : Obj) (a : call_args V) (s : St) :
  add_callback (Method f x) cb self a s =
  if has_keyword "self" (kwargs a) then (Raise TypeError, s)
  else
    match f self a s with
    | (Raise e, s1) => (Raise e, s1)
    | (Ok outputs, s1) =>
        match cb outputs s1 with
        | (Raise e, s2) => (Raise e, s2)
        | (Ok _, s2) => (Ok outputs, s2)
        end
    end.
Proof.
  unfold add_callback. destruct (has_keyword "self" (kwargs a)); [reflexivity|].
  unfold bind, lift, ret; simpl.
  destruct (f self a s) as [[o|e] s1]; [|reflexivity].
  destruct (cb o s1) as [[u|e] s2]; reflexivity.
Qed.

Lemma add_callback_function f cb (self : Obj) (a : call_args V) (s : St) :
  add_callback (Function f) cb self a s =
  if has_keyword "self" (kwargs a) then (Raise TypeError, s)
  else (Raise (AttributeError "__func__"), s).
Proof.
  unfold add_callback. by destruct (has_keyword "self" (kwargs a)).
Qed.

(** A call with positional arguments only. *)
Lemma add_callback_positional f (x : Obj) cb (self : Obj) (positional : list V)
      (s : St) :
  add_callback (Method f x) cb self (mkArgs positional []) s =
  match f self (mkArgs positional []) s with
  | (Raise e, s1) => (Raise e, s1)
  | (Ok outputs, s1) =>
      match cb outputs s1 with
      | (Raise e, s2) => (Raise e, s2)
      | (Ok _, s2) => (Ok outputs, s2)
      end
  end.
Proof. by rewrite add_callback_method. Qed.

(** One call of any wrapper, case by case. *)
Lemma add_callback_unfold (func : callable St Obj (call_args V) Out) cb
      (self : Obj) (a : call_args V) (s : St) :
  add_callback func cb self a s =
  if has_keyword "self" (kwargs a) then (Raise TypeError, s)
  else
    match func with
    | Function _ => (Raise (AttributeError "__func__"), s)
    | Method f _ =>
        match f self a s with
        | (Raise e, s1) => (Raise e, s1)
        | (Ok outputs, s1) =>
            match cb outputs s1 with
            | (Raise e, s2) => (Raise e, s2)
            | (Ok _, s2) => (Ok outputs, s2)
            end
        end
    end.
Proof.
  destruct func as [f|f x];
    [apply add_callback_function|apply add_callback_method].
Qed.
End AddCallbackUnfold.

Section AddCallbackFacts.
Context {St Obj V Out : Type}.
Implicit Types (f : Obj -> call_args V -> M St Out) (cb : Out -> M St unit).
Implicit Types (func : callable St Obj (call_args V) Out).

Lemma observed_calls_log func cb (calls : list (Obj * call_args V)) :
  forall (s : St) (log0 : list (event Obj (call_args V) Out)) outs s' log,
    call_each (add_callback (observe_callable func) (observe_callback cb))
              calls (s, log0) = (Ok outs, (s', log)) ->
    log = log0 ++ expected_log calls outs
    /\ length outs = length calls
    /\ call_each (add_callback func cb) calls s = (Ok outs, s')
    /\ Forall (fun c => has_keyword "self" (kwargs (snd c)) = false) calls
    /\ (calls <> [] -> exists f x, func = Method f x).
Proof.
  induction calls as [|[self a] calls IH]; intros s log0 outs s' log Hrun.
  - simpl in Hrun. inversion Hrun; subst.
    unfold expected_log; simpl. rewrite app_nil_r.
    repeat split; auto. intros Hne. by destruct Hne.
  - cbn [call_each] in Hrun. unfold bind at 1 in Hrun.
    rewrite add_callback_unfold in Hrun.
    cbn [call_each]. unfold bind at 1. rewrite add_callback_unfold.
    destruct (has_keyword "self" (kwargs a)) eqn:Hkw; [discriminate|].
    destruct func as [f|f x]; [discriminate|].
    cbn [observe_callable] in *.
    unfold observe_forward at 1, observe_callback at 1, logged in Hrun.
    destruct (f self a s) as [[o|e] s1]; [|discriminate].
    destruct (cb o s1) as [[u|e] s2]; [|discriminate].
    unfold bind at 1 in Hrun. unfold bind at 1.
    destruct (call_each _ calls (s2, _)) as [[os|e] [s3 log3]] eqn:Erest;
      [|discriminate].
    unfold ret in Hrun. inversion Hrun; subst; clear Hrun.
    destruct (IH _ _ _ _ _ Erest) as (Hlog & Hlen & Hplain & Hkws & _).
    rewrite Hplain. subst log. split; [|split; [|split; [|split]]].
    + unfold expected_log. simpl. rewrite <- !app_assoc. reflexivity.
    + simpl. by rewrite Hlen.
    + reflexivity.
    + constructor; [exact Hkw|exact Hkws].
    + intros _. by exists f, x.
Qed.

Lemma expected_log_callbacks (calls : list (Obj * call_args V)) (outs : list Out) :
  length outs = length calls ->
  length (filter (fun ev => is_callback_event ev = true) (expected_log calls outs))
  = length calls.
Proof.
  revert outs. induction calls as [|c calls IH]; intros [|o outs] Hlen;
    simpl in *; try discriminate; [reflexivity|].
  f_equal. apply IH. lia.
Qed.

End AddCallbackFacts.


(** ** The accumulation callback on the store *)

Section CallbackFacts.
Context {R : Type} {elem : Elem R} {collab : Collaborators R}.

Lemma set_callbacks_same (w : World R) (self : nat) (c : HessianCallback R) :
  callbacks w !! self = Some c ->
  set_callbacks w (<[self := c]> (callbacks w)) = w.
Proof.
  intros Hc. rewrite list_insert_id by exact Hc. by destruct w.
Qed.

Lemma on_callback_read {A} (g : HessianCallback R -> A) (self : nat) (w : World R) :
  on_callback self (me <- get ;; ret (g me)) w =
  match callbacks w !! self with
  | None => (Raise InvalidReference, w)
  | Some c => (Ok (g c), w)
  end.
Proof.
  unfold on_callback. destruct (callbacks w !! self) as [c|] eqn:Ec; [|reflexivity].
  unfold bind, get, ret; simpl. by rewrite set_callbacks_same.
Qed.

Lemma on_callback_add_sample (sample : list (Tensor R)) (self : nat) (w : World R) :
  on_callback self (add_sample sample) w =
  match callbacks w !! self with
  | None => (Raise InvalidReference, w)
  | Some c =>
      match to_tensor (arch c) sample with
      | Ok t => (Ok tt, set_callbacks w (<[self := summed (counted c) t]> (callbacks w)))
      | Raise e => (Raise e, set_callbacks w (<[self := counted c]> (callbacks w)))
      end
  end.
Proof.
  unfold on_callback. destruct (callbacks w !! self) as [c|]; [|reflexivity].
  rewrite add_sample_unfold. destruct (to_tensor (arch c) sample); reflexivity.
Qed.

Lemma outputs_getattr_unfold (outputs : nat) (name : string) (w : World R) :
  outputs_getattr outputs name w =
  match outputs_heap w !! outputs with
  | None => (Raise InvalidReference, w)
  | Some o => (getattr o name, w)
  end.
Proof.
  unfold outputs_getattr, read_outputs, bind, lift.
  destruct (outputs_heap w !! outputs); reflexivity.
Qed.

Lemma outputs_setattr_unfold (outputs : nat) (name : string) (v : pyval R) (w : World R) :
  outputs_setattr outputs name v w =
  match outputs_heap w !! outputs with
  | None => (Raise InvalidReference, w)
  | Some o => (Ok tt, set_outputs_heap w (<[outputs := setattr o name v]> (outputs_heap w)))
  end.
Proof.
  unfold outputs_setattr, read_outputs, bind, modify.
  destruct (outputs_heap w !! outputs); reflexivity.
Qed.

(** The callback, case by case. *)
Lemma HessianCallback_call_unfold (self outputs : nat) (w : World R) :
  HessianCallback_call self outputs w =
  match callbacks w !! self with
  | None => (Raise InvalidReference, w)
  | Some c =>
    match outputs_heap w !! outputs with
    | None => (Raise InvalidReference, w)
    | Some o =>
      match getattr o "logits" with
      | Raise e => (Raise e, w)
      | Ok l =>
        match hess (hc_model c) l with
        | Raise e => (Raise e, w)
        | Ok H =>
          match to_tensor (arch c) H with
          | Raise e =>
              (Raise e, set_callbacks w (<[self := counted c]> (callbacks w)))
          | Ok t =>
            let w1 := set_callbacks w
                        (<[self := summed (counted c) t]> (callbacks w)) in
            match detach l with
            | Raise e => (Raise e, w1)
            | Ok d =>
                (Ok tt, set_outputs_heap w1
                          (<[outputs := setattr o "logits" d]> (outputs_heap w)))
            end
          end
        end
      end
    end
  end.
Proof.
  unfold HessianCallback_call.
  unfold bind at 1. rewrite on_callback_read.
  destruct (callbacks w !! self) as [c|] eqn:Ec; [|reflexivity].
  unfold bind at 1. rewrite outputs_getattr_unfold.
  destruct (outputs_heap w !! outputs) as [o|] eqn:Eo; [|reflexivity].
  destruct (getattr o "logits") as [l|e] eqn:El; [|reflexivity].
  unfold bind at 1. unfold lift at 1.
  destruct (hess (hc_model c) l) as [Hs|e] eqn:EH; [|reflexivity].
  unfold bind at 1. rewrite on_callback_add_sample, Ec.
  destruct (to_tensor (arch c) Hs) as [t|e] eqn:Et; [|reflexivity].
  unfold bind at 1. rewrite outputs_getattr_unfold.
  cbn [outputs_heap set_callbacks]. rewrite Eo, El.
  unfold bind at 1. unfold lift at 1.
  destruct (detach l) as [d|e] eqn:Ed; [|reflexivity].
  rewrite outputs_setattr_unfold. cbn [outputs_heap set_callbacks]. rewrite Eo.
  reflexivity.
Qed.

Lemma field_setattr_ne (o : ModelOutput R) (name other : string) (v : pyval R) :
  other <> name -> field (setattr o name v) other = field o other.
Proof.
  intros Hne. induction o as [|[k w0] o IH]; simpl.
  - destruct (String.eqb_spec name other); [congruence|reflexivity].
  - destruct (String.eqb_spec k name) as [->|Hk]; simpl.
    + destruct (String.eqb_spec name other); [congruence|reflexivity].
    + destruct (String.eqb_spec k other); [reflexivity|exact IH].
Qed.

Lemma field_setattr_eq (o : ModelOutput R) (name : string) (v : pyval R) :
  field (setattr o name v) name = Some v.
Proof.
  induction o as [|[k w0] o IH]; simpl.
  - by rewrite String.eqb_refl.
  - destruct (String.eqb_spec k name) as [->|Hk]; simpl.
    + by rewrite String.eqb_refl.
    + destruct (String.eqb_spec k name); [congruence|exact IH].
Qed.

Lemma setattr_keys (o : ModelOutput R) (name : string) (v : pyval R) :
  is_Some (field o name) -> map fst (setattr o name v) = map fst o.
Proof.
  induction o as [|[k w0] o IH]; simpl; intros Hs.
  - by destruct Hs.
  - destruct (String.eqb_spec k name); simpl; [reflexivity|].
    f_equal. by apply IH.
Qed.
End CallbackFacts.

Section CallbackTheorems.
Context {R : Type} {elem : Elem R} {collab : Collaborators R}.

Lemma same_but_logits_refl (o : ModelOutput R) : same_but_logits o o.
Proof. split; [reflexivity|auto]. Qed.

Lemma getattr_field (o : ModelOutput R) (name : string) (v : pyval R) :
  getattr o name = Ok v -> field o name = Some v.
Proof. unfold getattr. destruct (field o name); congruence. Qed.

Lemma detach_tensor (l d : pyval R) :
  detach l = Ok d ->
  exists g, l = VTensor g /\ d = VTensor (mkGrad (values g) false).
Proof.
  destruct l as [g| |n]; simpl; intros Hd; try discriminate.
  inversion Hd; subst. by exists g.
Qed.

Lemma callback_frame_raise (outputs : nat) (w : World R) (e : exn)
      (cs : list (HessianCallback R)) :
  callback_frame outputs w (Raise e, set_callbacks w cs).
Proof.
  unfold callback_frame; simpl. repeat split; auto.
  intros o Ho. exists o. split; [exact Ho|].
  split; [apply same_but_logits_refl|]. split; [discriminate|reflexivity].
Qed.

Lemma callback_frame_raise_same (outputs : nat) (w : World R) (e : exn) :
  callback_frame outputs w (Raise e, w).
Proof.
  pose proof (callback_frame_raise outputs w e (callbacks w)) as Hf.
  by destruct w.
Qed.

(** What one run of the callback leaves of the store. *)
Lemma HessianCallback_call_frame (self outputs : nat) (w : World R) :
  callback_frame outputs w (HessianCallback_call self outputs w).
Proof.
  rewrite HessianCallback_call_unfold.
  destruct (callbacks w !! self) as [c|] eqn:Ec;
    [|apply callback_frame_raise_same].
  destruct (outputs_heap w !! outputs) as [o|] eqn:Eo;
    [|apply callback_frame_raise_same].
  destruct (getattr o "logits") as [l|e] eqn:El;
    [|apply callback_frame_raise_same].
  destruct (hess (hc_model c) l) as [Hs|e]; [|apply callback_frame_raise_same].
  destruct (to_tensor (arch c) Hs) as [t|e]; [|apply callback_frame_raise].
  cbv zeta.
  destruct (detach l) as [d|e] eqn:Ed; [|apply callback_frame_raise].
  unfold callback_frame; simpl.
  split; [reflexivity|]. split; [reflexivity|].
  split; [apply length_insert|].
  split; [intros other Hne; by apply list_lookup_insert_ne|].
  intros o0 Ho0. rewrite Eo in Ho0. inversion Ho0; subst o0.
  exists (setattr o "logits" d).
  split; [apply list_lookup_insert_eq; by eapply lookup_lt_Some|].
  apply getattr_field in El.
  destruct (detach_tensor l d Ed) as (g & -> & ->).
  split; [|split].
  - split; [apply setattr_keys; by rewrite El|].
    intros name Hne. by apply field_setattr_ne.
  - intros _. exists g. split; [exact El|apply field_setattr_eq].
  - intros Hne. by destruct Hne.
Qed.

Lemma call_function_new_func (inner : pyfunction) (x : objref) (cb : nat) :
  call_function (new_func (BoundMethod inner x) cb)
  = add_callback (Method (call_function inner) x) (HessianCallback_call cb).
Proof. reflexivity. Qed.


(** C8 (amended): within one invocation the callback applies the
    curvature formula to the logits exactly as the outputs object holds
    them on entry, attached or already detached, with no test of its own:
    when the formula raises on them the callback raises that error and the
    store is as it was, and when the formula, the flattening and the
    detach accept them the callback returns.  In a run that returns, the
    result of the formula on the entry logits was flattened and folded
    into the accumulator, and the object's logits are the detached copy of
    those entry logits.  In a run that raises, whether in the formula, in
    the fold or later, the outputs objects are all as they were on entry:
    the callback detaches nothing unless the estimate has been made and
    folded. *)
Theorem estimate_and_fold_precede_detach
        (self outputs : nat) (w : World R) (c : HessianCallback R)
        (o : ModelOutput R) :
  callbacks w !! self = Some c ->
  outputs_heap w !! outputs = Some o ->
  (forall w', HessianCallback_call self outputs w = (Ok tt, w') ->
     exists l Hs t d,
       getattr o "logits" = Ok l
       /\ hess (hc_model c) l = Ok Hs
       /\ to_tensor (arch c) Hs = Ok t
       /\ callbacks w' !! self = Some (summed (counted c) t)
       /\ detach l = Ok d
       /\ outputs_heap w' !! outputs = Some (setattr o "logits" d))
  /\ (forall e w', HessianCallback_call self outputs w = (Raise e, w') ->
        outputs_heap w' = outputs_heap w)
  /\ (forall e w' l, HessianCallback_call self outputs w = (Raise e, w') ->
        getattr o "logits" = Ok l -> hess (hc_model c) l = Raise e ->
        w' = w)
  /\ (forall l e, getattr o "logits" = Ok l -> hess (hc_model c) l = Raise e ->
        HessianCallback_call self outputs w = (Raise e, w))
  /\ (forall l Hs t d,
        getattr o "logits" = Ok l -> hess (hc_model c) l = Ok Hs ->
        to_tensor (arch c) Hs = Ok t -> detach l = Ok d ->
        HessianCallback_call self outputs w
        = (Ok tt,
           set_outputs_heap
             (set_callbacks w (<[self := summed (counted c) t]> (callbacks w)))
             (<[outputs := setattr o "logits" d]> (outputs_heap w)))).
Proof.
  intros Hc Ho. rewrite HessianCallback_call_unfold, Hc, Ho.
  destruct (getattr o "logits") as [l|e0] eqn:El.
  2:{ split; [intros w' Hr; discriminate|].
      repeat split; intros; congruence. }
  destruct (hess (hc_model c) l) as [Hs|e0] eqn:EH.
  2:{ split; [intros w' Hr; discriminate|].
      repeat split; intros; congruence. }
  destruct (to_tensor (arch c) Hs) as [t|e0] eqn:Et.
  2:{ split; [intros w' Hr; discriminate|].
      split; [|repeat split; intros; congruence].
      intros e w' Hr. inversion Hr; reflexivity. }
  cbv zeta. destruct (detach l) as [d|e0] eqn:Ed.
  2:{ split; [intros w' Hr; discriminate|].
      split; [|repeat split; intros; congruence].
      intros e w' Hr. inversion Hr; reflexivity. }
  split; [|repeat split; intros; congruence].
  intros w' Hr. inversion Hr; subst w'; clear Hr.
  exists l, Hs, t, d. simpl. repeat split; auto.
  - apply list_lookup_insert_eq. by eapply lookup_lt_Some.
  - apply list_lookup_insert_eq. by eapply lookup_lt_Some.
Qed.
End CallbackTheorems.

(** ** The driver *)

Scheme pyfunction_mut := Induction for pyfunction Sort Prop
  with pycallable_mut := Induction for pycallable Sort Prop.

Section DriverFacts.
Context {R : Type} {elem : Elem R} {collab : Collaborators R}.

Lemma bind_unfold {St A B} (c : M St A) (k : A -> M St B) (s : St) :
  bind c k s = match c s with
               | (Ok a, s') => k a s'
               | (Raise e, s') => (Raise e, s')
               end.
Proof. reflexivity. Qed.

Lemma bind_ret {St A} (c : M St A) (s : St) : bind c ret s = c s.
Proof. unfold bind, ret. by destruct (c s) as [[a|e] s']. Qed.

Lemma folded_over_fields (ts : list (FlattenedMatrix R)) (c : HessianCallback R) :
  hc_model (folded_over c ts) = hc_model c
  /\ arch (folded_over c ts) = arch c
  /\ hessian (folded_over c ts) = foldl tadd (hessian c) ts
  /\ num_samples (folded_over c ts) = num_samples c + Z.of_nat (length ts).
Proof.
  unfold folded_over. revert c.
  induction ts as [|t ts IH]; intros c; simpl.
  - repeat split; auto. lia.
  - destruct (IH (summed (counted c) t)) as (-> & -> & -> & ->).
    simpl. repeat split; auto. lia.
Qed.

Lemma batches_aux_one (dataset : list Item) (fuel : nat) :
  (length dataset <= fuel)%nat ->
  batches_aux fuel 1 dataset = map (fun x => [x]) dataset.
Proof.
  revert dataset. induction fuel as [|fuel IH]; intros [|x dataset] Hlen;
    simpl in *; try reflexivity; try lia.
  rewrite take_0, drop_0. f_equal. apply IH. lia.
Qed.

Lemma batches_one (dataset : list Item) :
  batches 1 dataset = map (fun x => [x]) dataset.
Proof. unfold batches. by apply batches_aux_one. Qed.

Lemma fisher_matrix_unfold (p : objref) (dataset : list Item) (w : World R) :
  fisher_matrix p dataset w =
  match Pipeline_call dataset 1 (instrumented p w) with
  | (Ok _, w2) => on_callback (length (callbacks w)) get_hessian w2
  | (Raise e, w2) => (Raise e, w2)
  end.
Proof.
  unfold fisher_matrix.
  unfold bind at 1. unfold get at 1.
  unfold bind at 1. unfold new_callback at 1.
  unfold bind at 1. unfold modify at 1.
  unfold bind at 1. unfold get at 1.
  unfold bind at 1. unfold modify at 1.
  unfold bind at 1.
  change (set_pipe _ _) with (instrumented p w).
  destruct (Pipeline_call dataset 1 (instrumented p w)) as [[preds|e] w2];
    [|reflexivity].
  apply bind_ret.
Qed.

(** One item through the instrumented pipeline, when all goes well. *)
Lemma Pipeline_forward_item (w : World R) (m : Model) (x p : objref) (cb : nat)
      (c : HessianCallback R) (item : Item) (o' : ModelOutput R)
      (t : FlattenedMatrix R) :
  pipe w = {| model := m; get_inference_context := enable_grad_lambda;
              _forward := BoundMethod (new_func (BoundMethod forward_impl x) cb) p |} ->
  callbacks w !! cb = Some c ->
  hc_model c = m ->
  arch c = parameters m ->
  process_item m item = Ok (o', t) ->
  Pipeline_forward [item] w =
  (Ok (length (outputs_heap w)),
   set_outputs_heap
     (set_callbacks w (<[cb := summed (counted c) t]> (callbacks w)))
     (outputs_heap w ++ [o'])).
Proof.
  intros Hpipe Hc Hm Harch Hitem.
  unfold process_item in Hitem.
  destruct (model_forward m true [item]) as [o|] eqn:Ef; simpl in Hitem;
    [|discriminate].
  destruct (getattr o "logits") as [l|] eqn:El; simpl in Hitem; [|discriminate].
  destruct (hess m l) as [Hs|] eqn:EH; simpl in Hitem; [|discriminate].
  destruct (to_tensor (parameters m) Hs) as [t0|] eqn:Et; simpl in Hitem;
    [|discriminate].
  destruct (detach l) as [d|] eqn:Ed; simpl in Hitem; [|discriminate].
  inversion Hitem; subst o' t0; clear Hitem.
  unfold Pipeline_forward. unfold bind at 1. unfold get at 1.
  rewrite Hpipe. cbn [get_inference_context inference_context].
  unfold with_grad_mode. unfold bind at 1. unfold get at 1.
  cbn [pipe set_grad_mode]. rewrite Hpipe. cbn [_forward call_callable].
  rewrite call_function_new_func, add_callback_method.
  cbn [call_function]. unfold Pipeline_forward_impl. cbn [args kwargs].
  unfold bind at 1. unfold get at 1. cbn [pipe grad_mode set_grad_mode]. rewrite Hpipe.
  cbn [model]. unfold bind at 1. unfold lift at 1. rewrite Ef.
  unfold new_outputs. cbn [outputs_heap set_outputs_heap].
  rewrite HessianCallback_call_unfold.
  cbn [callbacks outputs_heap set_outputs_heap set_grad_mode]. rewrite Hc.
  rewrite list_lookup_middle by reflexivity.
  rewrite El, Hm, EH, Harch, Et. cbv zeta. rewrite Ed.
  unfold set_outputs_heap, set_callbacks, set_grad_mode; simpl.
  rewrite (insert_app_r_alt _ _ (length (outputs_heap w))) by lia.
  rewrite Nat.sub_diag. simpl. reflexivity.
Qed.

(** One item through the instrumented pipeline, when the curvature
    formula raises on its logits. *)
Lemma Pipeline_forward_item_estimator_raises
      (w : World R) (m : Model) (x p : objref) (cb : nat)
      (c : HessianCallback R) (item : Item) (o : ModelOutput R)
      (l : pyval R) (e : exn) :
  pipe w = {| model := m; get_inference_context := enable_grad_lambda;
              _forward := BoundMethod (new_func (BoundMethod forward_impl x) cb) p |} ->
  callbacks w !! cb = Some c ->
  hc_model c = m ->
  model_forward m true [item] = Ok o ->
  getattr o "logits" = Ok l ->
  hess m l = Raise e ->
  Pipeline_forward [item] w
  = (Raise e, set_outputs_heap w (outputs_heap w ++ [o])).
Proof.
  intros Hpipe Hc Hm Ef El EH.
  unfold Pipeline_forward. unfold bind at 1. unfold get at 1.
  rewrite Hpipe. cbn [get_inference_context inference_context].
  unfold with_grad_mode. unfold bind at 1. unfold get at 1.
  cbn [pipe set_grad_mode]. rewrite Hpipe. cbn [_forward call_callable].
  rewrite call_function_new_func, add_callback_method.
  cbn [call_function]. unfold Pipeline_forward_impl. cbn [args kwargs].
  unfold bind at 1. unfold get at 1. cbn [pipe grad_mode set_grad_mode].
  rewrite Hpipe.
  cbn [model]. unfold bind at 1. unfold lift at 1. rewrite Ef.
  unfold new_outputs. cbn [outputs_heap set_outputs_heap].
  rewrite HessianCallback_call_unfold.
  cbn [callbacks outputs_heap set_outputs_heap set_grad_mode]. rewrite Hc.
  rewrite list_lookup_middle by reflexivity.
  rewrite El, Hm, EH.
  unfold set_outputs_heap, set_grad_mode; simpl. reflexivity.
Qed.

Lemma run_batches_app (bs1 bs2 : list (list Item)) (w : World R) :
  run_batches (bs1 ++ bs2) w =
  match run_batches bs1 w with
  | (Raise e, w1) => (Raise e, w1)
  | (Ok preds1, w1) =>
      match run_batches bs2 w1 with
      | (Raise e, w2) => (Raise e, w2)
      | (Ok preds2, w2) => (Ok (preds1 ++ preds2), w2)
      end
  end.
Proof.
  revert w. induction bs1 as [|b bs1 IH]; intros w.
  - cbn [app run_batches]. unfold ret at 1.
    by destruct (run_batches bs2 w) as [[q|e] w2].
  - cbn [app run_batches]. rewrite !bind_unfold.
    destruct (Pipeline_forward b w) as [[n|e] w1]; [|reflexivity].
    rewrite !bind_unfold.
    destruct (read_outputs n w1) as [[o|e] w1']; [|reflexivity].
    rewrite !bind_unfold. rewrite IH.
    destruct (run_batches bs1 w1') as [[q1|e] w2]; [|reflexivity].
    unfold ret at 2.
    destruct (run_batches bs2 w2) as [[q2|e] w3]; [|reflexivity].
    unfold ret. by rewrite app_assoc.
Qed.

(** A run of items that all go well. *)
Lemma run_batches_items (m : Model) (x p : objref) (cb : nat) (xs : list Item) :
  forall (w : World R) (c : HessianCallback R)
         (ps : list (ModelOutput R * FlattenedMatrix R)),
    pipe w = {| model := m; get_inference_context := enable_grad_lambda;
                _forward := BoundMethod (new_func (BoundMethod forward_impl x) cb) p |} ->
    callbacks w !! cb = Some c ->
    hc_model c = m ->
    arch c = parameters m ->
    process_items m xs = Ok ps ->
    run_batches (map (fun i => [i]) xs) w =
    (Ok (concat (map (fun q => postprocess (fst q)) ps)),
     set_outputs_heap
       (set_callbacks w (<[cb := folded_over c (map snd ps)]> (callbacks w)))
       (outputs_heap w ++ map fst ps)).
Proof.
  induction xs as [|item xs IH]; intros w c ps Hpipe Hc Hm Harch Hps.
  - simpl in Hps. inversion Hps; subst ps. simpl. unfold ret.
    rewrite app_nil_r. unfold folded_over; simpl.
    rewrite list_insert_id by exact Hc. by destruct w.
  - simpl in Hps.
    destruct (process_item m item) as [[o' t]|] eqn:Eitem; simpl in Hps;
      [|discriminate].
    destruct (process_items m xs) as [ps'|] eqn:Erest; simpl in Hps;
      [|discriminate].
    inversion Hps; subst ps; clear Hps.
    cbn [map run_batches]. unfold bind at 1.
    rewrite (Pipeline_forward_item w m x p cb c item o' t) by assumption.
    unfold bind at 1. unfold read_outputs at 1.
    cbn [outputs_heap set_outputs_heap].
    rewrite list_lookup_middle by reflexivity.
    unfold bind at 1.
    assert (Hlt : (cb < length (callbacks w))%nat) by (by eapply lookup_lt_Some).
    rewrite (IH _ (summed (counted c) t) ps'); try assumption; try reflexivity.
    + unfold ret. cbn [map fst snd concat].
      unfold set_outputs_heap, set_callbacks; simpl.
      rewrite list_insert_insert_eq. rewrite <- app_assoc. reflexivity.
    + simpl. by apply list_lookup_insert_eq.
Qed.

Lemma instrumented_fresh (p x : objref) (w : World R) :
  _forward (pipe w) = BoundMethod forward_impl x ->
  pipe (instrumented p w)
  = {| model := model (pipe w); get_inference_context := enable_grad_lambda;
       _forward := BoundMethod
                     (new_func (BoundMethod forward_impl x) (length (callbacks w)))
                     p |}
  /\ callbacks (instrumented p w) !! length (callbacks w)
     = Some (HessianCallback_init (model (pipe w))).
Proof.
  intros Hf. unfold instrumented; simpl. rewrite Hf. split; [reflexivity|].
  by apply list_lookup_middle.
Qed.

Lemma process_items_length (m : Model) (xs : list Item)
      (ps : list (ModelOutput R * FlattenedMatrix R)) :
  process_items m xs = Ok ps -> length ps = length xs.
Proof.
  revert ps. induction xs as [|x xs IH]; intros ps Hps; simpl in Hps.
  - by inversion Hps.
  - destruct (process_item m x); simpl in Hps; [|discriminate].
    destruct (process_items m xs) as [ps'|]; simpl in Hps; [|discriminate].
    inversion Hps; subst. simpl. f_equal. by apply IH.
Qed.

Lemma process_items_lengths (m : Model) (xs : list Item)
      (ps : list (ModelOutput R * FlattenedMatrix R)) :
  process_items m xs = Ok ps ->
  Forall (fun t => length t = arch_size (parameters m)) (map snd ps).
Proof.
  revert ps. induction xs as [|x xs IH]; intros ps Hps; simpl in Hps.
  - inversion Hps. constructor.
  - destruct (process_item m x) as [[o' t]|] eqn:Ex; simpl in Hps; [|discriminate].
    destruct (process_items m xs) as [ps'|]; simpl in Hps; [|discriminate].
    inversion Hps; subst. simpl. constructor; [|by apply IH].
    unfold process_item in Ex.
    destruct (model_forward m true [x]) as [o|]; simpl in Ex; [|discriminate].
    destruct (getattr o "logits") as [l|]; simpl in Ex; [|discriminate].
    destruct (hess m l) as [Hs|]; simpl in Ex; [|discriminate].
    destruct (to_tensor (parameters m) Hs) as [t0|] eqn:Et; simpl in Ex;
      [|discriminate].
    destruct (detach l); simpl in Ex; [|discriminate].
    inversion Ex; subst. by apply to_tensor_flattens in Et as [_ ?].
Qed.

Lemma on_callback_get_hessian (cb : nat) (w : World R) :
  on_callback cb get_hessian w =
  match callbacks w !! cb with
  | None => (Raise InvalidReference, w)
  | Some c => (Ok (tdiv (hessian c) (num_samples c)), w)
  end.
Proof. apply (on_callback_read (fun c => tdiv (hessian c) (num_samples c))). Qed.

(** *** What every call leaves in place *)

Lemma evolves_refl (w : World R) : evolves w w.
Proof. repeat split; auto. intros i c Hc. by exists c. Qed.

Lemma evolves_trans (w1 w2 w3 : World R) :
  evolves w1 w2 -> evolves w2 w3 -> evolves w1 w3.
Proof.
  intros (Hp1 & Hg1 & Hc1) (Hp2 & Hg2 & Hc2).
  split; [congruence|]. split; [congruence|].
  intros i c Hc. destruct (Hc1 i c Hc) as (c' & Hc' & Hm & Ha).
  destruct (Hc2 i c' Hc') as (c'' & Hc'' & Hm' & Ha').
  exists c''. split; [exact Hc''|]. split; congruence.
Qed.

Lemma evolves_set_outputs_heap (w : World R) (os : list (ModelOutput R)) :
  evolves w (set_outputs_heap w os).
Proof. repeat split; auto. intros i c Hc. by exists c. Qed.

Lemma evolves_set_callbacks (w : World R) (self : nat) (c c' : HessianCallback R) :
  callbacks w !! self = Some c ->
  hc_model c' = hc_model c -> arch c' = arch c ->
  evolves w (set_callbacks w (<[self := c']> (callbacks w))).
Proof.
  intros Hc Hm Ha. split; [reflexivity|]. split; [reflexivity|].
  intros i ci Hci. simpl. destruct (decide (i = self)) as [->|Hne].
  - exists c'. rewrite list_lookup_insert_eq by (by eapply lookup_lt_Some).
    rewrite Hc in Hci. inversion Hci; subst. auto.
  - exists ci. by rewrite list_lookup_insert_ne.
Qed.

Lemma HessianCallback_call_evolves (self outputs : nat) (w : World R) :
  evolves w (snd (HessianCallback_call self outputs w)).
Proof.
  rewrite HessianCallback_call_unfold.
  destruct (callbacks w !! self) as [c|] eqn:Ec; [|apply evolves_refl].
  destruct (outputs_heap w !! outputs) as [o|]; [|apply evolves_refl].
  destruct (getattr o "logits") as [l|]; [|apply evolves_refl].
  destruct (hess (hc_model c) l) as [Hs|]; [|apply evolves_refl].
  destruct (to_tensor (arch c) Hs) as [t|];
    [|by apply (evolves_set_callbacks w self c)].
  cbv zeta. destruct (detach l) as [d|];
    [|by apply (evolves_set_callbacks w self c)].
  cbn [snd]. eapply evolves_trans; [|apply evolves_set_outputs_heap].
  by apply (evolves_set_callbacks w self c).
Qed.

Lemma Pipeline_forward_impl_evolves (self : objref) (a : call_args (list Item))
      (w : World R) :
  evolves w (snd (Pipeline_forward_impl self a w)).
Proof.
  unfold Pipeline_forward_impl.
  destruct (args a) as [|b [|b' bs]]; try apply evolves_refl.
  destruct (kwargs a); [|apply evolves_refl].
  rewrite bind_unfold. unfold get at 1. rewrite bind_unfold. unfold lift at 1.
  destruct (model_forward (model (pipe w)) (grad_mode w) b) as [o|];
    [|apply evolves_refl].
  apply evolves_set_outputs_heap.
Qed.

Lemma call_function_evolves (f : pyfunction) :
  forall (self : objref) (a : call_args (list Item)) (w : World R),
    evolves w (snd (call_function f self a w)).
Proof.
  induction f using pyfunction_mut with
    (P0 := fun c => forall (cb : nat) (self : objref) (a : call_args (list Item))
                           (w : World R),
             evolves w (snd (add_callback (denote c) (HessianCallback_call cb)
                                          self a w))).
  - apply Pipeline_forward_impl_evolves.
  - intros self a w. apply IHf.
  - intros cb self a w.
    change (denote (PlainFunction f)) with (Function (call_function f)).
    rewrite add_callback_function.
    destruct (has_keyword "self" (kwargs a)); apply evolves_refl.
  - intros cb this a w.
    change (denote (BoundMethod f self)) with (Method (call_function f) self).
    rewrite add_callback_method.
    destruct (has_keyword "self" (kwargs a)); [apply evolves_refl|].
    specialize (IHf this a w).
    destruct (call_function f this a w) as [[out|e] w1]; [|exact IHf].
    pose proof (HessianCallback_call_evolves cb out w1) as Hcb.
    destruct (HessianCallback_call cb out w1) as [[u|e] w2];
      by eapply evolves_trans.
Qed.

Lemma Pipeline_forward_evolves (batch : list Item) (w : World R) :
  evolves w (snd (Pipeline_forward batch w)).
Proof.
  unfold Pipeline_forward. rewrite bind_unfold. unfold get at 1.
  unfold with_grad_mode. rewrite bind_unfold. unfold get at 1.
  set (w0 := set_grad_mode w _).
  assert (Hbody : evolves w0 (snd (call_callable (_forward (pipe w0))
                                     (mkArgs [batch] []) w0))).
  { destruct (_forward (pipe w0)) as [f|f self]; simpl.
    - apply evolves_refl.
    - apply call_function_evolves. }
  destruct (call_callable _ _ w0) as [r w1]. cbn [snd] in *.
  destruct Hbody as (Hp & Hg & Hc). repeat split; auto.
Qed.

Lemma run_batches_evolves (bs : list (list Item)) (w : World R) :
  evolves w (snd (run_batches bs w)).
Proof.
  revert w. induction bs as [|b bs IH]; intros w; [apply evolves_refl|].
  cbn [run_batches]. rewrite bind_unfold.
  pose proof (Pipeline_forward_evolves b w) as Hb.
  destruct (Pipeline_forward b w) as [[n|e] w1]; [|exact Hb].
  rewrite bind_unfold. unfold read_outputs at 1.
  destruct (outputs_heap w1 !! n) as [o|]; [|exact Hb].
  rewrite bind_unfold. specialize (IH w1).
  destruct (run_batches bs w1) as [[q|e] w2]; by eapply evolves_trans.
Qed.

Lemma fisher_matrix_evolves (p : objref) (dataset : list Item) (w : World R) :
  evolves (instrumented p w) (snd (fisher_matrix p dataset w)).
Proof.
  rewrite fisher_matrix_unfold. unfold Pipeline_call.
  pose proof (run_batches_evolves (batches 1 dataset) (instrumented p w)) as Hrun.
  destruct (run_batches _ _) as [[q|e] w2]; [|exact Hrun].
  rewrite on_callback_get_hessian.
  by destruct (callbacks w2 !! length (callbacks w)).
Qed.
End DriverFacts.

Section DriverTheorems.
Context {R : Type} {elem : Elem R} {collab : Collaborators R}.

Lemma fisher_matrix_empty (p : objref) (w : World R) :
  fisher_matrix p [] w
  = (Ok (tdiv (zeros (parameters (model (pipe w)))) 0), instrumented p w).
Proof.
  rewrite fisher_matrix_unfold. unfold Pipeline_call, batches. simpl.
  unfold ret. rewrite on_callback_get_hessian. cbn [callbacks instrumented].
  rewrite list_lookup_middle by reflexivity. reflexivity.
Qed.

(** C1 (amended): with [num_samples] equal to 0, [get_hessian] raises
    nothing: it returns the running sum divided element by element by 0,
    as the tensor library's division gives it, and leaves the accumulator
    as it was; so on an empty dataset [fisher_matrix] returns the zero
    matrix divided by 0. *)
Theorem get_hessian_zero_samples_returns_quotient (c : HessianCallback R) :
  num_samples c = 0 ->
  get_hessian c = (Ok (tdiv (hessian c) 0), c)
  /\ (forall e, fst (get_hessian c) <> Raise e)
  /\ (forall (p : objref) (w : World R),
        fisher_matrix p [] w
        = (Ok (tdiv (zeros (parameters (model (pipe w)))) 0), instrumented p w)).
Proof.
  intros Hzero. rewrite get_hessian_unfold, Hzero.
  split; [reflexivity|]. split; [discriminate|]. apply fisher_matrix_empty.
Qed.

(** The run of the driver on items that all go well. *)
Lemma Pipeline_call_items (p x : objref) (w : World R) (dataset : list Item)
      (ps : list (ModelOutput R * FlattenedMatrix R)) :
  _forward (pipe w) = BoundMethod forward_impl x ->
  process_items (model (pipe w)) dataset = Ok ps ->
  Pipeline_call dataset 1 (instrumented p w) =
  (Ok (concat (map (fun q => postprocess (fst q)) ps)),
   set_outputs_heap
     (set_callbacks (instrumented p w)
        (callbacks w
           ++ [folded_over (HessianCallback_init (model (pipe w))) (map snd ps)]))
     (outputs_heap w ++ map fst ps)).
Proof.
  intros Hf Hps. unfold Pipeline_call. rewrite batches_one.
  destruct (instrumented_fresh p x w Hf) as (Hpipe & Hcb).
  rewrite (run_batches_items (model (pipe w)) x p (length (callbacks w)) dataset
             (instrumented p w) (HessianCallback_init (model (pipe w))) ps)
    by (try assumption; reflexivity).
  f_equal. f_equal. f_equal. cbn [callbacks instrumented].
  rewrite (insert_app_r_alt _ _ (length (callbacks w))) by lia.
  by rewrite Nat.sub_diag.
Qed.

Lemma fisher_matrix_items (p x : objref) (w : World R) (dataset : list Item)
      (ps : list (ModelOutput R * FlattenedMatrix R)) :
  _forward (pipe w) = BoundMethod forward_impl x ->
  process_items (model (pipe w)) dataset = Ok ps ->
  fst (fisher_matrix p dataset w)
  = Ok (elementwise_mean (parameters (model (pipe w))) (map snd ps)).
Proof.
  intros Hf Hps.
  rewrite fisher_matrix_unfold, (Pipeline_call_items p x w dataset ps Hf Hps).
  rewrite on_callback_get_hessian.
  cbn [callbacks set_outputs_heap set_callbacks].
  rewrite list_lookup_middle by reflexivity. cbn [fst].
  destruct (folded_over_fields (map snd ps) (HessianCallback_init (model (pipe w))))
    as (_ & _ & -> & ->).
  rewrite <- running_mean_elementwise by (by eapply process_items_lengths).
  reflexivity.
Qed.

(** C9: the driver is the pipeline run on the batches of size 1 of the
    dataset, one item per forward call, followed by [get_hessian] on the
    accumulator.  When every item goes through, the run returns the
    predictions of all the items, the accumulator has counted as many
    samples as the dataset has items, and the driver returns exactly what
    [get_hessian] returns on it: the sum of the flattened curvatures of
    the items, each computed from the forward pass on that item alone,
    divided by their number. *)
Theorem fisher_matrix_runs_dataset_one_item_per_call
        (p x : objref) (w : World R) (dataset : list Item)
        (ps : list (ModelOutput R * FlattenedMatrix R)) :
  _forward (pipe w) = BoundMethod forward_impl x ->
  process_items (model (pipe w)) dataset = Ok ps ->
  fisher_matrix p dataset w
  = match run_batches (map (fun i => [i]) dataset) (instrumented p w) with
    | (Ok _, w2) => on_callback (length (callbacks w)) get_hessian w2
    | (Raise e, w2) => (Raise e, w2)
    end
  /\ exists (w2 : World R) (c : HessianCallback R),
       Pipeline_call dataset 1 (instrumented p w)
       = (Ok (concat (map (fun q => postprocess (fst q)) ps)), w2)
       /\ length ps = length dataset
       /\ outputs_heap w2 = outputs_heap w ++ map fst ps
       /\ callbacks w2 !! length (callbacks w) = Some c
       /\ num_samples c = Z.of_nat (length dataset)
       /\ hessian c = foldl tadd (zeros (parameters (model (pipe w)))) (map snd ps)
       /\ fisher_matrix p dataset w = (fst (get_hessian c), w2)
       /\ fst (fisher_matrix p dataset w)
          = Ok (elementwise_mean (parameters (model (pipe w))) (map snd ps)).
Proof.
  intros Hf Hps. split.
  { rewrite fisher_matrix_unfold. unfold Pipeline_call. by rewrite batches_one. }
  pose proof (Pipeline_call_items p x w dataset ps Hf Hps) as Hrun.
  pose proof (process_items_length _ _ _ Hps) as Hlen.
  set (c := folded_over (HessianCallback_init (model (pipe w))) (map snd ps)).
  fold c in Hrun.
  destruct (folded_over_fields (map snd ps) (HessianCallback_init (model (pipe w))))
    as (Hm & Ha & Hh & Hn).
  fold c in Hm, Ha, Hh, Hn. cbn [HessianCallback_init hessian num_samples] in Hh, Hn.
  rewrite length_map in Hn.
  eexists _, c. split; [exact Hrun|]. split; [exact Hlen|].
  split; [reflexivity|].
  assert (Hlook : (callbacks w ++ [c]) !! length (callbacks w) = Some c)
    by (by apply list_lookup_middle).
  split; [exact Hlook|]. split; [rewrite Hn; lia|]. split; [exact Hh|].
  rewrite fisher_matrix_unfold, Hrun, on_callback_get_hessian.
  cbn [callbacks set_outputs_heap set_callbacks]. rewrite Hlook.
  rewrite get_hessian_unfold. cbn [fst]. split; [reflexivity|].
  rewrite <- running_mean_elementwise by (by eapply process_items_lengths).
  unfold running_mean. rewrite Hh, Hn, length_map. do 2 f_equal.
Qed.

(** C6: when the items before one go through and the curvature formula
    raises on that one, the driver raises that same error and returns no
    result, and the accumulator of the run is exactly what the folds of
    the items before left: the counter is their number and the running
    sum is the sum of their flattened curvatures; the failed item has
    changed neither. *)
Theorem estimator_error_aborts_the_run
        (p x : objref) (w : World R) (before after : list Item) (item : Item)
        (ps : list (ModelOutput R * FlattenedMatrix R))
        (o : ModelOutput R) (l : pyval R) (e : exn) :
  _forward (pipe w) = BoundMethod forward_impl x ->
  process_items (model (pipe w)) before = Ok ps ->
  model_forward (model (pipe w)) true [item] = Ok o ->
  getattr o "logits" = Ok l ->
  hess (model (pipe w)) l = Raise e ->
  exists (w' : World R) (c : HessianCallback R),
    fisher_matrix p (before ++ item :: after) w = (Raise e, w')
    /\ callbacks w' !! length (callbacks w) = Some c
    /\ c = folded_over (HessianCallback_init (model (pipe w))) (map snd ps)
    /\ num_samples c = Z.of_nat (length before)
    /\ hessian c = foldl tadd (zeros (parameters (model (pipe w)))) (map snd ps).
Proof.
  intros Hf Hps Ef El EH.
  pose proof (Pipeline_call_items p x w before ps Hf Hps) as Hrun.
  unfold Pipeline_call in Hrun. rewrite batches_one in Hrun.
  pose proof (process_items_length _ _ _ Hps) as Hlen.
  set (c := folded_over (HessianCallback_init (model (pipe w))) (map snd ps)).
  fold c in Hrun.
  destruct (folded_over_fields (map snd ps) (HessianCallback_init (model (pipe w))))
    as (Hm & Ha & Hh & Hn).
  fold c in Hm, Ha, Hh, Hn. cbn [HessianCallback_init hessian num_samples hc_model] in *.
  rewrite length_map in Hn.
  assert (Hlook : (callbacks w ++ [c]) !! length (callbacks w) = Some c)
    by (by apply list_lookup_middle).
  eexists _, c.
  split; [|split; [|split; [reflexivity|split; [rewrite Hn; lia|exact Hh]]]].
  - rewrite fisher_matrix_unfold. unfold Pipeline_call. rewrite batches_one.
    rewrite map_app. cbn [map]. rewrite run_batches_app, Hrun.
    cbn [run_batches]. rewrite bind_unfold.
    rewrite (Pipeline_forward_item_estimator_raises _ (model (pipe w)) x p
               (length (callbacks w)) c item o l e); try assumption.
    + reflexivity.
    + unfold instrumented; simpl. by rewrite Hf.
  - exact Hlook.
Qed.

(** C10: whether [fisher_matrix] returns or raises, the pipeline it
    leaves has the lambda that enables gradients as its context selector
    and the wrapper around the former [_forward], bound to the pipeline,
    as its [_forward]; nothing puts the former values back.  Every later
    forward call through that pipeline therefore runs the wrapper with
    gradients enabled, and, on a pipeline that had its own [_forward]
    before, a later item that goes through is folded into the
    accumulator of the finished run. *)
Theorem fisher_matrix_leaves_pipeline_instrumented
        (p : objref) (dataset : list Item) (w : World R) :
  let w' := snd (fisher_matrix p dataset w) in
  let cb := length (callbacks w) in
  get_inference_context (pipe w') = enable_grad_lambda
  /\ _forward (pipe w') = BoundMethod (new_func (_forward (pipe w)) cb) p
  /\ model (pipe w') = model (pipe w)
  /\ (forall batch : list Item,
        Pipeline_forward batch w'
        = with_grad_mode true
            (call_function (new_func (_forward (pipe w)) cb) p (mkArgs [batch] []))
            w')
  /\ (forall (x : objref) (item : Item) (o' : ModelOutput R)
             (t : FlattenedMatrix R),
        _forward (pipe w) = BoundMethod forward_impl x ->
        process_item (model (pipe w)) item = Ok (o', t) ->
        exists (c : HessianCallback R) (w'' : World R),
          callbacks w' !! cb = Some c
          /\ Pipeline_forward [item] w' = (Ok (length (outputs_heap w')), w'')
          /\ callbacks w'' !! cb = Some (summed (counted c) t)).
Proof.
  cbv zeta.
  destruct (fisher_matrix_evolves p dataset w) as (Hpipe & _ & Hcbs).
  set (w' := snd (fisher_matrix p dataset w)) in *.
  split; [by rewrite Hpipe|]. split; [by rewrite Hpipe|].
  split; [by rewrite Hpipe|]. split.
  - intros batch. unfold Pipeline_forward. rewrite bind_unfold. unfold get at 1.
    rewrite Hpipe. cbn [instrumented pipe get_inference_context inference_context].
    unfold with_grad_mode. rewrite bind_unfold. unfold get at 1.
    cbn [pipe set_grad_mode]. rewrite Hpipe. reflexivity.
  - intros x item o' t Hf Hitem.
    destruct (instrumented_fresh p x w Hf) as (Hpi & Hinit).
    destruct (Hcbs _ _ Hinit) as (c & Hc & Hm & Ha).
    cbn [HessianCallback_init hc_model arch] in Hm, Ha.
    exists c.
    exists (set_outputs_heap
              (set_callbacks w' (<[length (callbacks w) := summed (counted c) t]>
                                   (callbacks w')))
              (outputs_heap w' ++ [o'])).
    split; [exact Hc|]. split.
    + apply (Pipeline_forward_item w' (model (pipe w)) x p (length (callbacks w)) c);
        try assumption. by rewrite Hpipe.
    + cbn [callbacks set_outputs_heap set_callbacks].
      apply list_lookup_insert_eq. by eapply lookup_lt_Some.
Qed.
End DriverTheorems.

(** ** Examples *)

Section FloatExamples.
#[local] Existing Instance float_elem.
#[local] Existing Instance float_toy.

(** Division of a double by the integer 0 never fails and never gives a
    finite number: the quotient is NaN or an infinity. *)
Lemma float_division_by_zero (x : float) :
  is_nan (ediv x 0) = true \/ is_infinity (ediv x 0) = true.
Proof.
  change (ediv x 0) with (x / 0)%float.
  unfold is_nan, is_infinity.
  rewrite !FloatAxioms.eqb_spec, FloatAxioms.abs_spec, FloatAxioms.div_spec.
  change (Prim2SF 0%float) with (S754_zero false).
  change (Prim2SF infinity) with (S754_infinity false).
  destruct (Prim2SF x) as [sx|sx| |sx mx ex]; simpl; auto.
Qed.

(** Counterexample to C1 as stated: on a new accumulator, whose
    [num_samples] is 0, [get_hessian] returns a matrix of NaN and raises
    nothing; so does [fisher_matrix] on the empty dataset. *)
Lemma get_hessian_zero_samples_gives_nan :
  num_samples float_accumulator = 0
  /\ fst (get_hessian float_accumulator) = Ok (replicate 8 nan)
  /\ fst (get_hessian float_accumulator) <> Raise ArithmeticError
  /\ fst (fisher_matrix pipe_ref [] float_world) = Ok (replicate 8 nan).
Proof.
  split; [reflexivity|]. split; [reflexivity|].
  split; [discriminate|reflexivity].
Qed.

Lemma get_hessian_zero_samples_witness :
  num_samples float_accumulator = 0
  /\ (get_hessian float_accumulator
      = (Ok (tdiv (hessian float_accumulator) 0), float_accumulator)
      /\ (forall e, fst (get_hessian float_accumulator) <> Raise e)
      /\ (forall (p : objref) (w : World float),
            fisher_matrix p [] w
            = (Ok (tdiv (zeros (parameters (model (pipe w)))) 0),
               instrumented p w))).
Proof.
  split; [reflexivity|].
  apply (get_hessian_zero_samples_returns_quotient float_accumulator).
  reflexivity.
Defined.

(** Counterexample to C2 as stated: the same three valid samples, folded
    in two orders, give two different results in double precision. *)
Lemma float_mean_depends_on_fold_order :
  samples_big_minus_one ≡ₚ samples_big_one_minus
  /\ is_ok (flatten_all toy_model samples_big_one_minus) = true
  /\ fst ((add_samples samples_big_one_minus ;;; get_hessian) float_accumulator)
     = Ok (replicate 8 0%float)
  /\ fst ((add_samples samples_big_minus_one ;;; get_hessian) float_accumulator)
     = Ok (replicate 8 (1 / 3)%float)
  /\ fst ((add_samples samples_big_one_minus ;;; get_hessian) float_accumulator)
     <> fst ((add_samples samples_big_minus_one ;;; get_hessian) float_accumulator).
Proof.
  split; [apply perm_skip, perm_swap|].
  split; [reflexivity|]. split; [reflexivity|]. split; [reflexivity|].
  intros Heq. apply (f_equal head_is_zero) in Heq.
  vm_compute in Heq. discriminate.
Qed.
End FloatExamples.

Section ExactExamples.
#[local] Existing Instance Qc_elem.
#[local] Existing Instance Qc_toy.

Lemma Qc_exact_add : ExactAdd Qc.
Proof. split; intros; simpl; [apply Qcplus_comm|apply Qcplus_assoc]. Qed.

Lemma mean_of_folds_witness :
  flatten_all toy_model scenario_samples = Ok scenario_flattened
  /\ (fst ((add_samples scenario_samples ;;; get_hessian) scenario_accumulator)
      = Ok (elementwise_mean toy_model scenario_flattened)
      /\ (ExactAdd Qc ->
          forall samples', samples' ≡ₚ scenario_samples ->
            fst ((add_samples samples' ;;; get_hessian) scenario_accumulator)
            = Ok (elementwise_mean toy_model scenario_flattened))).
Proof.
  split; [reflexivity|].
  apply (get_hessian_is_mean_of_folds (collab := Qc_toy) toy_model scenario_samples
           scenario_flattened).
  reflexivity.
Defined.

Lemma scenario_mean_value :
  elementwise_mean toy_model scenario_flattened = replicate 8 (q 2).
Proof.
  cbv -[Qcplus Qcdiv Q2Qc inject_Z Z.of_nat].
  repeat (apply (f_equal2 cons); [apply Qc_is_canon; reflexivity|]).
  reflexivity.
Qed.

(** The scenario of three items on the model with parameters of shapes
    (2,) and (3,2): the driver returns the matrix of 2s. *)
Lemma scenario_three_items :
  fst (fisher_matrix pipe_ref [[q 1]; [q 2]; [q 3]] scenario_world)
  = Ok (replicate 8 (q 2)).
Proof.
  rewrite <- scenario_mean_value.
  apply (fisher_matrix_items (collab := Qc_toy) pipe_ref pipe_ref scenario_world
           [[q 1]; [q 2]; [q 3]] scenario_processed); reflexivity.
Qed.
End ExactExamples.

(** ** Examples of the wrapper and of the driver *)





Section DriverExamples.
#[local] Existing Instance float_elem.
#[local] Existing Instance float_toy.

Lemma estimator_error_witness :
  _forward (pipe float_world) = BoundMethod forward_impl pipe_ref
  /\ process_items (model (pipe float_world)) [[1%float]] = Ok item_one_processed
  /\ model_forward (model (pipe float_world)) true [[]] = Ok empty_logits_outputs
  /\ getattr empty_logits_outputs "logits" = Ok (VTensor (mkGrad [] true))
  /\ hess (model (pipe float_world)) (VTensor (mkGrad [] true)) = Raise (Raised 2)
  /\ exists (w' : World float) (c : HessianCallback float),
       fisher_matrix pipe_ref ([[1%float]] ++ [] :: [[3%float]]) float_world
       = (Raise (Raised 2), w')
       /\ callbacks w' !! length (callbacks float_world) = Some c
       /\ c = folded_over (HessianCallback_init (model (pipe float_world)))
                          (map snd item_one_processed)
       /\ num_samples c = Z.of_nat (length [[1%float]])
       /\ hessian c = foldl tadd (zeros (parameters (model (pipe float_world))))
                             (map snd item_one_processed).
Proof.
  do 5 (split; [reflexivity|]).
  apply (estimator_error_aborts_the_run pipe_ref pipe_ref float_world
           [[1%float]] [[3%float]] [] item_one_processed empty_logits_outputs
           (VTensor (mkGrad [] true)) (Raised 2)); reflexivity.
Defined.

Lemma estimate_precedes_detach_witness :
  callbacks world_with_outputs !! 0%nat = Some float_accumulator
  /\ outputs_heap world_with_outputs !! 0%nat = Some attached_outputs
  /\ ((forall w', HessianCallback_call 0 0 world_with_outputs = (Ok tt, w') ->
         exists l Hs t d,
           getattr attached_outputs "logits" = Ok l
           /\ hess (hc_model float_accumulator) l = Ok Hs
           /\ to_tensor (arch float_accumulator) Hs = Ok t
           /\ callbacks w' !! 0%nat = Some (summed (counted float_accumulator) t)
           /\ detach l = Ok d
           /\ outputs_heap w' !! 0%nat = Some (setattr attached_outputs "logits" d))
      /\ (forall e w', HessianCallback_call 0 0 world_with_outputs = (Raise e, w') ->
            outputs_heap w' = outputs_heap world_with_outputs)
      /\ (forall e w' l,
            HessianCallback_call 0 0 world_with_outputs = (Raise e, w') ->
            getattr attached_outputs "logits" = Ok l ->
            hess (hc_model float_accumulator) l = Raise e ->
            w' = world_with_outputs)
      /\ (forall l e,
            getattr attached_outputs "logits" = Ok l ->
            hess (hc_model float_accumulator) l = Raise e ->
            HessianCallback_call 0 0 world_with_outputs
            = (Raise e, world_with_outputs))
      /\ (forall l Hs t d,
            getattr attached_outputs "logits" = Ok l ->
            hess (hc_model float_accumulator) l = Ok Hs ->
            to_tensor (arch float_accumulator) Hs = Ok t -> detach l = Ok d ->
            HessianCallback_call 0 0 world_with_outputs
            = (Ok tt,
               set_outputs_heap
                 (set_callbacks world_with_outputs
                    (<[0%nat := summed (counted float_accumulator) t]>
                       (callbacks world_with_outputs)))
                 (<[0%nat := setattr attached_outputs "logits" d]>
                    (outputs_heap world_with_outputs))))).
Proof.
  split; [reflexivity|]. split; [reflexivity|].
  apply (estimate_and_fold_precede_detach 0 0 world_with_outputs
           float_accumulator attached_outputs); reflexivity.
Defined.

(** On the example store the callback returns: the formula saw the
    attached logits (it raises on detached ones), the sample is counted
    and the logits are left detached. *)
Lemma callback_on_attached_logits :
  fst (HessianCallback_call 0 0 world_with_outputs) = Ok tt
  /\ hess (hc_model float_accumulator) (VTensor (mkGrad [2%float] false))
     = Raise (Raised 1)
  /\ num_samples <$> callbacks (snd (HessianCallback_call 0 0 world_with_outputs)) !! 0%nat
     = Some 1
  /\ outputs_heap (snd (HessianCallback_call 0 0 world_with_outputs)) !! 0%nat
     = Some [("logits"%string, VTensor (mkGrad [2%float] false));
             ("hidden_states"%string, VOpaque 1)].
Proof. repeat split. Qed.

(** The scenario of three items in double precision: the means are
    whole numbers and come out exactly. *)
Lemma float_scenario_three_items :
  fst (fisher_matrix pipe_ref [[1%float]; [2%float]; [3%float]] float_world)
  = Ok (replicate 8 2%float).
Proof. reflexivity. Qed.

(** Two runs of the driver on the same pipeline, one item each.  The
    second run goes through the wrapper of the first: the accumulator of
    the first run counts the item of the second as well, and it detaches
    the logits before the callback of the second run sees them, so that
    with a curvature formula that needs attached logits the second run
    raises and its own accumulator stays empty. *)
Lemma second_run_feeds_first_accumulator :
  let w1 := snd (fisher_matrix pipe_ref [[1%float]] float_world) in
  let w2 := snd (fisher_matrix pipe_ref [[3%float]] w1) in
  _forward (pipe w2)
  = BoundMethod
      (new_func
         (BoundMethod (new_func (BoundMethod forward_impl pipe_ref) 0) pipe_ref) 1)
      pipe_ref
  /\ get_inference_context (pipe w2) = enable_grad_lambda
  /\ num_samples <$> callbacks w1 !! 0%nat = Some 1
  /\ num_samples <$> callbacks w2 !! 0%nat = Some 2
  /\ num_samples <$> callbacks w2 !! 1%nat = Some 0
  /\ fst (fisher_matrix pipe_ref [[3%float]] w1) = Raise (Raised 1).
Proof. repeat split. Qed.

(** When the flatten step raises (the formula returned no tensor for the
    two-valued sample), the counter has been bumped and the running sum
    has not changed. *)
Lemma flatten_error_counts_the_sample :
  add_sample [] float_accumulator
  = (Raise ShapeError, counted float_accumulator)
  /\ num_samples (counted float_accumulator) = 1
  /\ hessian (counted float_accumulator) = hessian float_accumulator.
Proof. repeat split. Qed.
End DriverExamples.

Section DetachedLogitsExamples.
#[local] Existing Instance float_elem.
#[local] Existing Instance float_lenient.

(** Counterexample to C8 as stated: the callback is handed an outputs
    object whose logits are already detached; it applies the curvature
    formula to them as they are, returns, and has folded the estimate made
    from the detached logits.  The driver gets there by itself: a second
    run on the same pipeline goes through the wrapper of the first run,
    whose callback detaches the logits before the callback of the second
    run is called on them, and the second run returns the estimate made
    from them. *)
Lemma estimator_called_on_detached_logits :
  callbacks detached_logits_world !! 0%nat = Some (HessianCallback_init toy_model)
  /\ outputs_heap detached_logits_world !! 0%nat = Some detached_outputs
  /\ getattr detached_outputs "logits" = Ok (VTensor (mkGrad [2%float] false))
  /\ hess toy_model (VTensor (mkGrad [2%float] false))
     = Ok (constant_sample 2%float)
  /\ fst (HessianCallback_call 0 0 detached_logits_world) = Ok tt
  /\ callbacks (snd (HessianCallback_call 0 0 detached_logits_world)) !! 0%nat
     = Some (summed (counted (HessianCallback_init toy_model))
                    (replicate 8 2%float))
  /\ (let w1 := snd (fisher_matrix pipe_ref [[1%float]] lenient_world) in
      fst (fisher_matrix pipe_ref [[3%float]] w1) = Ok (replicate 8 3%float)
      /\ num_samples <$> callbacks (snd (fisher_matrix pipe_ref [[3%float]] w1))
                           !! 0%nat = Some 2
      /\ num_samples <$> callbacks (snd (fisher_matrix pipe_ref [[3%float]] w1))
                           !! 1%nat = Some 1).
Proof. repeat split. Qed.
End DetachedLogitsExamples.

Section ScenarioExamples.
#[local] Existing Instance Qc_elem.
#[local] Existing Instance Qc_toy.

Lemma one_item_per_call_witness :
  _forward (pipe scenario_world) = BoundMethod forward_impl pipe_ref
  /\ process_items (model (pipe scenario_world)) [[q 1]; [q 2]; [q 3]]
     = Ok scenario_processed
  /\ (fisher_matrix pipe_ref [[q 1]; [q 2]; [q 3]] scenario_world
      = match run_batches (map (fun i => [i]) [[q 1]; [q 2]; [q 3]])
                          (instrumented pipe_ref scenario_world) with
        | (Ok _, w2) => on_callback (length (callbacks scenario_world)) get_hessian w2
        | (Raise e, w2) => (Raise e, w2)
        end
      /\ exists (w2 : World Qc) (c : HessianCallback Qc),
           Pipeline_call [[q 1]; [q 2]; [q 3]] 1 (instrumented pipe_ref scenario_world)
           = (Ok (concat (map (fun p => postprocess (fst p)) scenario_processed)), w2)
           /\ length scenario_processed = length [[q 1]; [q 2]; [q 3]]
           /\ outputs_heap w2
              = outputs_heap scenario_world ++ map fst scenario_processed
           /\ callbacks w2 !! length (callbacks scenario_world) = Some c
           /\ num_samples c = Z.of_nat (length [[q 1]; [q 2]; [q 3]])
           /\ hessian c
              = foldl tadd (zeros (parameters (model (pipe scenario_world))))
                      (map snd scenario_processed)
           /\ fisher_matrix pipe_ref [[q 1]; [q 2]; [q 3]] scenario_world
              = (fst (get_hessian c), w2)
           /\ fst (fisher_matrix pipe_ref [[q 1]; [q 2]; [q 3]] scenario_world)
              = Ok (elementwise_mean (parameters (model (pipe scenario_world)))
                                     (map snd scenario_processed))).
Proof.
  split; [reflexivity|]. split; [reflexivity|].
  apply (fisher_matrix_runs_dataset_one_item_per_call pipe_ref pipe_ref
           scenario_world [[q 1]; [q 2]; [q 3]] scenario_processed); reflexivity.
Defined.
End ScenarioExamples.

(** ** Failures of a run, and runs that follow one another *)

Section FailureFacts.
Context {R : Type} {elem : Elem R} {collab : Collaborators R}.

(** One call of the wrapper around the pipeline's own [_forward], case by
    case. *)
Lemma wrapped_forward_unfold (w : World R) (x p : objref) (cb : nat)
      (c : HessianCallback R) (batch : list Item) :
  callbacks w !! cb = Some c ->
  call_function (new_func (BoundMethod forward_impl x) cb) p (mkArgs [batch] []) w =
  match model_forward (model (pipe w)) (grad_mode w) batch with
  | Raise e => (Raise e, w)
  | Ok o =>
    let w1 := set_outputs_heap w (outputs_heap w ++ [o]) in
    match getattr o "logits" with
    | Raise e => (Raise e, w1)
    | Ok l =>
      match hess (hc_model c) l with
      | Raise e => (Raise e, w1)
      | Ok H =>
        match to_tensor (arch c) H with
        | Raise e =>
            (Raise e, set_callbacks w1 (<[cb := counted c]> (callbacks w)))
        | Ok t =>
          let w2 := set_callbacks w1
                      (<[cb := summed (counted c) t]> (callbacks w)) in
          match detach l with
          | Raise e => (Raise e, w2)
          | Ok d =>
              (Ok (length (outputs_heap w)),
               set_outputs_heap w2 (outputs_heap w ++ [setattr o "logits" d]))
          end
        end
      end
    end
  end.
Proof.
  intros Hc.
  rewrite call_function_new_func, add_callback_method.
  cbn [call_function]. unfold Pipeline_forward_impl. cbn [args kwargs].
  rewrite bind_unfold. unfold get at 1. rewrite bind_unfold. unfold lift at 1.
  destruct (model_forward (model (pipe w)) (grad_mode w) batch) as [o|e];
    [|reflexivity].
  unfold new_outputs. rewrite HessianCallback_call_unfold.
  cbn [callbacks outputs_heap set_outputs_heap]. rewrite Hc.
  rewrite list_lookup_middle by reflexivity.
  destruct (getattr o "logits") as [l|e]; [|reflexivity].
  destruct (hess (hc_model c) l) as [Hs|e]; [|reflexivity].
  destruct (to_tensor (arch c) Hs) as [t|e]; [|reflexivity].
  cbv zeta. destruct (detach l) as [d|e]; [|reflexivity].
  rewrite (insert_app_r_alt _ _ (length (outputs_heap w))) by lia.
  rewrite Nat.sub_diag. reflexivity.
Qed.

Lemma Pipeline_forward_wrapped (w : World R) (f : pyfunction) (p : objref)
      (batch : list Item) :
  get_inference_context (pipe w) = enable_grad_lambda ->
  _forward (pipe w) = BoundMethod f p ->
  Pipeline_forward batch w
  = (fst (call_function f p (mkArgs [batch] []) (set_grad_mode w true)),
     set_grad_mode
       (snd (call_function f p (mkArgs [batch] []) (set_grad_mode w true)))
       (grad_mode w)).
Proof.
  intros Hsel Hf. unfold Pipeline_forward. rewrite bind_unfold. unfold get at 1.
  rewrite Hsel. cbn [inference_context].
  unfold with_grad_mode. rewrite bind_unfold. unfold get at 1.
  cbn [pipe set_grad_mode]. rewrite Hf. cbn [call_callable].
  by destruct (call_function f p (mkArgs [batch] []) (set_grad_mode w true)).
Qed.

Lemma after_items_fresh (p x : objref) (w : World R)
      (ps : list (ModelOutput R * FlattenedMatrix R)) :
  _forward (pipe w) = BoundMethod forward_impl x ->
  get_inference_context (pipe (after_items p w ps)) = enable_grad_lambda
  /\ _forward (pipe (after_items p w ps))
     = BoundMethod (new_func (BoundMethod forward_impl x) (length (callbacks w))) p
  /\ model (pipe (after_items p w ps)) = model (pipe w)
  /\ callbacks (after_items p w ps) !! length (callbacks w)
     = Some (folded_over (HessianCallback_init (model (pipe w))) (map snd ps)).
Proof.
  intros Hf. unfold after_items, instrumented; simpl. rewrite Hf.
  repeat split. by apply list_lookup_middle.
Qed.

(** The driver stops at the first item on which the forward call raises. *)
Lemma fisher_matrix_first_failure (p x : objref) (w : World R)
      (before after : list Item) (item : Item)
      (ps : list (ModelOutput R * FlattenedMatrix R)) (e : exn) :
  _forward (pipe w) = BoundMethod forward_impl x ->
  process_items (model (pipe w)) before = Ok ps ->
  fst (Pipeline_forward [item] (after_items p w ps)) = Raise e ->
  fisher_matrix p (before ++ item :: after) w
  = (Raise e, snd (Pipeline_forward [item] (after_items p w ps))).
Proof.
  intros Hf Hps Hfail.
  pose proof (Pipeline_call_items p x w before ps Hf Hps) as Hrun.
  unfold Pipeline_call in Hrun. rewrite batches_one in Hrun.
  rewrite fisher_matrix_unfold. unfold Pipeline_call. rewrite batches_one.
  rewrite map_app. cbn [map]. rewrite run_batches_app, Hrun.
  fold (after_items p w ps).
  cbn [run_batches]. rewrite bind_unfold.
  destruct (Pipeline_forward [item] (after_items p w ps)) as [[n|e'] w2];
    simpl in Hfail; [discriminate|].
  by inversion Hfail.
Qed.

(** The forward call on one item after items that went through, case by
    case, as far as the accumulator of the run and the outputs objects
    go. *)
Lemma Pipeline_forward_after_items (p x : objref) (w : World R)
      (ps : list (ModelOutput R * FlattenedMatrix R)) (item : Item) :
  _forward (pipe w) = BoundMethod forward_impl x ->
  let c := folded_over (HessianCallback_init (model (pipe w))) (map snd ps) in
  let w0 := set_grad_mode (after_items p w ps) true in
  Pipeline_forward [item] (after_items p w ps)
  = (fst (call_function (new_func (BoundMethod forward_impl x) (length (callbacks w)))
                        p (mkArgs [[item]] []) w0),
     set_grad_mode
       (snd (call_function (new_func (BoundMethod forward_impl x) (length (callbacks w)))
                           p (mkArgs [[item]] []) w0))
       (grad_mode w))
  /\ callbacks w0 !! length (callbacks w) = Some c
  /\ model (pipe w0) = model (pipe w)
  /\ grad_mode w0 = true
  /\ outputs_heap w0 = outputs_heap w ++ map fst ps
  /\ hc_model c = model (pipe w)
  /\ arch c = parameters (model (pipe w)).
Proof.
  intros Hf. cbv zeta.
  destruct (after_items_fresh p x w ps Hf) as (Hsel & Hfw & Hm & Hc).
  split; [exact (Pipeline_forward_wrapped (after_items p w ps) _ p [item] Hsel Hfw)|].
  split; [exact Hc|]. split; [exact Hm|]. split; [reflexivity|].
  split; [reflexivity|].
  destruct (folded_over_fields (map snd ps) (HessianCallback_init (model (pipe w))))
    as (-> & -> & _ & _).
  split; reflexivity.
Qed.
End FailureFacts.

Section FailureTheorems.
Context {R : Type} {elem : Elem R} {collab : Collaborators R}.


(** X2: when the items before one go through and the outputs of that one
    have no [logits] attribute, the driver raises AttributeError for
    [logits]; the curvature formula has not been called on that item and
    the accumulator of the run holds exactly the folds of the items
    before. *)
Theorem missing_logits_aborts_the_run
        (p x : objref) (w : World R) (before after : list Item) (item : Item)
        (ps : list (ModelOutput R * FlattenedMatrix R)) (o : ModelOutput R) :
  _forward (pipe w) = BoundMethod forward_impl x ->
  process_items (model (pipe w)) before = Ok ps ->
  model_forward (model (pipe w)) true [item] = Ok o ->
  field o "logits" = None ->
  exists (w' : World R) (c : HessianCallback R),
    fisher_matrix p (before ++ item :: after) w
    = (Raise (AttributeError "logits"), w')
    /\ callbacks w' !! length (callbacks w) = Some c
    /\ num_samples c = Z.of_nat (length before)
    /\ hessian c = foldl tadd (zeros (parameters (model (pipe w)))) (map snd ps)
    /\ outputs_heap w' = outputs_heap w ++ map fst ps ++ [o].
Proof.
  intros Hf Hps Ef Hno.
  assert (El : getattr o "logits" = Raise (AttributeError "logits"))
    by (unfold getattr; by rewrite Hno).
  destruct (Pipeline_forward_after_items p x w ps item Hf)
    as (Hpf & Hc & Hm & Hg & Hheap & Hcm & Hca).
  rewrite (wrapped_forward_unfold _ x p _ _ [item] Hc) in Hpf.
  rewrite Hm, Hg, Ef, El in Hpf. cbv zeta in Hpf. cbn [fst snd] in Hpf.
  pose proof (process_items_length _ _ _ Hps) as Hlen.
  destruct (folded_over_fields (map snd ps) (HessianCallback_init (model (pipe w))))
    as (_ & _ & Hh & Hn).
  rewrite length_map, Hlen in Hn.
  eexists _, _. split.
  - rewrite (fisher_matrix_first_failure p x w before after item ps
               (AttributeError "logits") Hf Hps);
      rewrite Hpf; reflexivity.
  - cbn [callbacks outputs_heap set_grad_mode set_callbacks set_outputs_heap].
    split; [exact Hc|]. rewrite Hn, Hh.
    cbn [HessianCallback_init num_samples hessian].
    split; [lia|]. split; [reflexivity|].
    unfold after_items; simpl. by rewrite app_assoc.
Qed.

(** X3: when the items before one go through and the forward pass raises
    on that one, the driver raises the same error; the callback has not
    run for that item: no outputs object was made for it and the
    accumulator of the run holds exactly the folds of the items before;
    the pipeline stays instrumented. *)
Theorem forward_error_aborts_the_run
        (p x : objref) (w : World R) (before after : list Item) (item : Item)
        (ps : list (ModelOutput R * FlattenedMatrix R)) (e : exn) :
  _forward (pipe w) = BoundMethod forward_impl x ->
  process_items (model (pipe w)) before = Ok ps ->
  model_forward (model (pipe w)) true [item] = Raise e ->
  fisher_matrix p (before ++ item :: after) w = (Raise e, after_items p w ps)
  /\ outputs_heap (after_items p w ps) = outputs_heap w ++ map fst ps
  /\ exists c : HessianCallback R,
       callbacks (after_items p w ps) !! length (callbacks w) = Some c
       /\ num_samples c = Z.of_nat (length before)
       /\ hessian c = foldl tadd (zeros (parameters (model (pipe w)))) (map snd ps).
Proof.
  intros Hf Hps Ef.
  destruct (Pipeline_forward_after_items p x w ps item Hf)
    as (Hpf & Hc & Hm & Hg & Hheap & Hcm & Hca).
  rewrite (wrapped_forward_unfold _ x p _ _ [item] Hc) in Hpf.
  rewrite Hm, Hg, Ef in Hpf. cbn [fst snd] in Hpf.
  assert (Hback : set_grad_mode (set_grad_mode (after_items p w ps) true) (grad_mode w)
                  = after_items p w ps) by reflexivity.
  rewrite Hback in Hpf.
  pose proof (process_items_length _ _ _ Hps) as Hlen.
  destruct (folded_over_fields (map snd ps) (HessianCallback_init (model (pipe w))))
    as (_ & _ & Hh & Hn).
  rewrite length_map, Hlen in Hn.
  split.
  - rewrite (fisher_matrix_first_failure p x w before after item ps e Hf Hps);
      rewrite Hpf; reflexivity.
  - split; [reflexivity|]. eexists. split; [exact Hc|].
    rewrite Hn, Hh. cbn [HessianCallback_init num_samples hessian].
    split; [lia|reflexivity].
Qed.
End FailureTheorems.

Section RepeatedRuns.
Context {R : Type} {elem : Elem R} {collab : Collaborators R}.

Lemma call_function_new_func_plain (f : pyfunction) (cb : nat) :
  call_function (new_func (PlainFunction f) cb)
  = add_callback (Function (call_function f)) (HessianCallback_call cb).
Proof. reflexivity. Qed.

Lemma getattr_setattr (o : ModelOutput R) (name : string) (v : pyval R) :
  getattr (setattr o name v) name = Ok v.
Proof. unfold getattr. by rewrite field_setattr_eq. Qed.

(** X4: a pipeline whose [_forward] attribute holds a plain function is
    instrumented all the same, and the first item of the next dataset
    makes the driver raise AttributeError for [__func__]: no forward pass
    has run, no outputs object exists and the new accumulator is
    untouched. *)
Theorem plain_function_slot_fails_on_first_item
        (p : objref) (w : World R) (f : pyfunction) (item : Item) (rest : list Item) :
  _forward (pipe w) = PlainFunction f ->
  fisher_matrix p (item :: rest) w
  = (Raise (AttributeError "__func__"), instrumented p w)
  /\ outputs_heap (instrumented p w) = outputs_heap w
  /\ callbacks (instrumented p w) !! length (callbacks w)
     = Some (HessianCallback_init (model (pipe w))).
Proof.
  intros Hf. split; [|split; [reflexivity|by apply list_lookup_middle]].
  rewrite fisher_matrix_unfold. unfold Pipeline_call. rewrite batches_one.
  cbn [map run_batches]. rewrite bind_unfold.
  rewrite (Pipeline_forward_wrapped (instrumented p w)
             (new_func (_forward (pipe w)) (length (callbacks w))) p [item])
    by reflexivity.
  rewrite Hf, call_function_new_func_plain, add_callback_function.
  reflexivity.
Qed.

(** X5: a second run of the driver on a pipeline that a first run has
    instrumented goes through both wrappers, the wrapper of the first run
    inside.  On an item that the first callback handles, the accumulator
    of the first run folds the item and the logits are detached before the
    callback of the second run reads them: the curvature formula of the
    second run is applied to the detached logits, and when it raises on
    them the second run raises that error with its own accumulator still
    new. *)
Theorem second_run_estimates_on_detached_logits
        (p x : objref) (w : World R) (first : list Item) (item : Item)
        (rest : list Item) (o : ModelOutput R) (l d : pyval R)
        (Hs : list (Tensor R)) (t : FlattenedMatrix R) (e : exn) :
  _forward (pipe w) = BoundMethod forward_impl x ->
  model_forward (model (pipe w)) true [item] = Ok o ->
  getattr o "logits" = Ok l ->
  hess (model (pipe w)) l = Ok Hs ->
  to_tensor (parameters (model (pipe w))) Hs = Ok t ->
  detach l = Ok d ->
  hess (model (pipe w)) d = Raise e ->
  exists (w2 : World R) (c0 : HessianCallback R),
    callbacks (snd (fisher_matrix p first w)) !! length (callbacks w) = Some c0
    /\ fisher_matrix p (item :: rest) (snd (fisher_matrix p first w)) = (Raise e, w2)
    /\ callbacks w2 !! length (callbacks w) = Some (summed (counted c0) t)
    /\ callbacks w2 !! length (callbacks (snd (fisher_matrix p first w)))
       = Some (HessianCallback_init (model (pipe w)))
    /\ outputs_heap w2
       = outputs_heap (snd (fisher_matrix p first w)) ++ [setattr o "logits" d].
Proof.
  intros Hf Ef El EH Et Ed EHd.
  destruct (fisher_matrix_evolves p first w) as (Hpipe1 & _ & Hcbs).
  set (w1 := snd (fisher_matrix p first w)) in *.
  destruct (instrumented_fresh p x w Hf) as (Hpi & Hinit).
  destruct (Hcbs _ _ Hinit) as (c0 & Hc0 & Hm0 & Ha0).
  cbn [HessianCallback_init hc_model arch] in Hm0, Ha0.
  assert (Hmodel : model (pipe w1) = model (pipe w)) by (by rewrite Hpipe1).
  assert (Hfw1 : _forward (pipe w1)
                 = BoundMethod (new_func (BoundMethod forward_impl x)
                                         (length (callbacks w))) p)
    by (by rewrite Hpipe1, Hpi).
  assert (Hlt : (length (callbacks w) < length (callbacks w1))%nat)
    by (by eapply lookup_lt_Some).
  set (W0 := set_grad_mode (instrumented p w1) true).
  assert (HcW0 : callbacks W0 !! length (callbacks w) = Some c0)
    by (by apply lookup_app_l_Some).
  pose proof (wrapped_forward_unfold W0 x p (length (callbacks w)) c0 [item] HcW0)
    as Hinner.
  change (model (pipe W0)) with (model (pipe w1)) in Hinner.
  change (grad_mode W0) with true in Hinner.
  rewrite Hmodel, Ef, El, Hm0, EH, Ha0, Et in Hinner. cbv zeta in Hinner.
  rewrite Ed in Hinner.
  exists (set_grad_mode
            (set_outputs_heap
               (set_callbacks
                  (set_outputs_heap W0 (outputs_heap W0 ++ [o]))
                  (<[length (callbacks w) := summed (counted c0) t]> (callbacks W0)))
               (outputs_heap W0 ++ [setattr o "logits" d]))
            (grad_mode w1)), c0.
  split; [exact Hc0|]. split.
  - rewrite fisher_matrix_unfold. unfold Pipeline_call. rewrite batches_one.
    cbn [map run_batches]. rewrite bind_unfold.
    rewrite (Pipeline_forward_wrapped (instrumented p w1)
               (new_func (_forward (pipe w1)) (length (callbacks w1))) p [item])
      by reflexivity.
    fold W0. rewrite Hfw1, call_function_new_func, add_callback_method, Hinner.
    rewrite HessianCallback_call_unfold.
    cbn [callbacks outputs_heap set_outputs_heap set_callbacks].
    rewrite list_lookup_insert_ne by lia.
    change (callbacks W0) with (callbacks w1 ++ [HessianCallback_init (model (pipe w1))]).
    rewrite list_lookup_middle by reflexivity.
    rewrite list_lookup_middle by reflexivity.
    rewrite getattr_setattr. cbn [HessianCallback_init hc_model].
    rewrite Hmodel, EHd. reflexivity.
  - cbn [callbacks outputs_heap set_outputs_heap set_callbacks set_grad_mode].
    change (callbacks W0) with (callbacks w1 ++ [HessianCallback_init (model (pipe w1))]).
    split; [|split].
    + apply list_lookup_insert_eq. rewrite length_app. simpl. lia.
    + rewrite list_lookup_insert_ne by lia. rewrite Hmodel.
      by apply list_lookup_middle.
    + reflexivity.
Qed.
End RepeatedRuns.

Section RaisingRuns.
Context {St Obj V Out : Type}.
Implicit Types (f : Obj -> call_args V -> M St Out) (cb : Out -> M St unit).
Implicit Types (func : callable St Obj (call_args V) Out).

Lemma expected_log_cons (c : Obj * call_args V) (calls : list (Obj * call_args V))
      (o : Out) (outs : list Out) :
  expected_log (c :: calls) (o :: outs)
  = [EvForward (fst c) (snd c); EvCallback o] ++ expected_log calls outs.
Proof. reflexivity. Qed.

Lemma raising_run_log_from func cb (calls : list (Obj * call_args V)) :
  forall (s : St) (log0 : list (event Obj (call_args V) Out)) e s' log,
    call_each (add_callback (observe_callable func) (observe_callback cb))
              calls (s, log0) = (Raise e, (s', log)) ->
    exists (k : nat) (self : Obj) (a : call_args V) (outs : list Out) (sk : St),
      calls !! k = Some (self, a)
      /\ call_each (add_callback func cb) (take k calls) s = (Ok outs, sk)
      /\ call_each (add_callback func cb) calls s = (Raise e, s')
      /\ ((has_keyword "self" (kwargs a) = true
           /\ e = TypeError /\ s' = sk
           /\ log = log0 ++ expected_log (take k calls) outs)
          \/ (has_keyword "self" (kwargs a) = false
              /\ (exists f, func = Function f)
              /\ e = AttributeError "__func__" /\ s' = sk
              /\ log = log0 ++ expected_log (take k calls) outs)
          \/ (has_keyword "self" (kwargs a) = false
              /\ exists f x,
                  func = Method f x
                  /\ f self a sk = (Raise e, s')
                  /\ log = log0 ++ expected_log (take k calls) outs
                                ++ [EvForward self a])
          \/ (has_keyword "self" (kwargs a) = false
              /\ exists f x o s1,
                  func = Method f x
                  /\ f self a sk = (Ok o, s1) /\ cb o s1 = (Raise e, s')
                  /\ log = log0 ++ expected_log (take k calls) outs
                                ++ [EvForward self a; EvCallback o])).
Proof.
  induction calls as [|[self0 a0] calls IH]; intros s log0 e s' log Hrun.
  - discriminate.
  - cbn [call_each] in Hrun. rewrite bind_unfold, add_callback_unfold in Hrun.
    cbn [call_each]. rewrite bind_unfold, add_callback_unfold.
    destruct (has_keyword "self" (kwargs a0)) eqn:Hkw.
    { injection Hrun as <- <- <-. exists 0%nat, self0, a0, [], s.
      split; [reflexivity|]. split; [reflexivity|]. split; [reflexivity|].
      left. unfold expected_log; simpl. by rewrite app_nil_r. }
    destruct func as [f|f x].
    { injection Hrun as <- <- <-. exists 0%nat, self0, a0, [], s.
      split; [reflexivity|]. split; [reflexivity|]. split; [reflexivity|].
      right; left. split; [exact Hkw|]. split; [by exists f|].
      unfold expected_log; simpl. by rewrite app_nil_r. }
    cbn [observe_callable] in *.
    unfold observe_forward at 1, observe_callback at 1, logged in Hrun.
    destruct (f self0 a0 s) as [[o|e0] s1] eqn:Ef.
    2:{ injection Hrun as <- <- <-. exists 0%nat, self0, a0, [], s.
        split; [reflexivity|]. split; [reflexivity|]. split; [reflexivity|].
        right; right; left. split; [exact Hkw|]. exists f, x. by repeat split. }
    destruct (cb o s1) as [[u|e0] s2] eqn:Ecb.
    2:{ injection Hrun as <- <- <-. exists 0%nat, self0, a0, [], s.
        split; [reflexivity|]. split; [reflexivity|]. split; [reflexivity|].
        right; right; right. split; [exact Hkw|]. exists f, x, o, s1.
        split; [reflexivity|]. split; [exact Ef|]. split; [exact Ecb|].
        unfold expected_log; simpl. by rewrite <- app_assoc. }
    rewrite bind_unfold in Hrun.
    destruct (call_each _ calls (s2, _)) as [[os|e1] [s3 log3]] eqn:Erest;
      [discriminate|].
    inversion Hrun; subst e1 s3 log3; clear Hrun.
    destruct (IH _ _ _ _ _ Erest)
      as (k & self & a & outs & sk & Hk & Hpre & Hall & Hlast).
    exists (S k), self, a, (o :: outs), sk.
    split; [exact Hk|]. split; [|split].
    + cbn [take call_each]. rewrite bind_unfold, add_callback_method, Hkw, Ef, Ecb.
      rewrite bind_unfold, Hpre. reflexivity.
    + rewrite bind_unfold, Hall. reflexivity.
    + cbn [take]. rewrite expected_log_cons. cbn [fst snd].
      destruct Hlast
        as [(Hs & -> & -> & ->)
           |[(Hs & Hfn & -> & -> & ->)
            |[(Hs & f' & x' & Hfn & Hf & ->)
             |(Hs & f' & x' & o' & s1' & Hfn & Hf & Hcb & ->)]]].
      * left. repeat split; auto. by rewrite <- !app_assoc.
      * right; left. repeat split; auto. by rewrite <- !app_assoc.
      * right; right; left. split; [exact Hs|]. exists f', x'.
        split; [exact Hfn|]. split; [exact Hf|]. by rewrite <- !app_assoc.
      * right; right; right. split; [exact Hs|]. exists f', x', o', s1'.
        split; [exact Hfn|]. split; [exact Hf|]. split; [exact Hcb|].
        by rewrite <- !app_assoc.
Qed.

End RaisingRuns.

Section ReadsBetweenFolds.
Context {R : Type} {elem : Elem R} {collab : Collaborators R}.

(** X7: [get_hessian] can be read between folds and resets nothing: after
    valid samples, a read, more valid samples and a second read, the first
    read is the element-wise mean of the first samples and the second the
    element-wise mean of all the samples folded so far. *)
Theorem get_hessian_between_folds
        (m : Model) (s1 s2 : list (list (Tensor R)))
        (ts1 ts2 : list (FlattenedMatrix R)) :
  flatten_all (parameters m) s1 = Ok ts1 ->
  flatten_all (parameters m) s2 = Ok ts2 ->
  fst ((add_samples s1 ;;;
        r1 <- get_hessian ;;
        add_samples s2 ;;;
        r2 <- get_hessian ;;
        ret (r1, r2)) (HessianCallback_init m))
  = Ok (elementwise_mean (parameters m) ts1,
        elementwise_mean (parameters m) (ts1 ++ ts2)).
Proof.
  intros H1 H2.
  pose proof (flatten_all_lengths _ _ _ H1) as Hl1.
  pose proof (flatten_all_lengths _ _ _ H2) as Hl2.
  rewrite <- !running_mean_elementwise by (try apply Forall_app; auto).
  rewrite bind_unfold, (add_samples_valid s1 ts1) by exact H1.
  rewrite bind_unfold, get_hessian_unfold.
  rewrite bind_unfold, (add_samples_valid s2 ts2) by exact H2.
  rewrite bind_unfold, get_hessian_unfold.
  unfold ret, running_mean.
  cbn [fst hessian num_samples HessianCallback_init].
  rewrite foldl_app, length_app, Nat2Z.inj_add. reflexivity.
Qed.
End ReadsBetweenFolds.

(** ** Examples of failures and of repeated runs *)


Section FirstModelFailures.
#[local] Existing Instance float_elem.
#[local] Existing Instance float_toy.


Lemma second_run_witness :
  _forward (pipe float_world) = BoundMethod forward_impl pipe_ref
  /\ model_forward (model (pipe float_world)) true [[3%float]]
     = Ok [("logits"%string, VTensor (mkGrad [3%float] true));
           ("hidden_states"%string, VOpaque 1)]
  /\ hess (model (pipe float_world)) (VTensor (mkGrad [3%float] true))
     = Ok (constant_sample 3%float)
  /\ to_tensor (parameters (model (pipe float_world))) (constant_sample 3%float)
     = Ok (replicate 8 3%float)
  /\ hess (model (pipe float_world)) (VTensor (mkGrad [3%float] false))
     = Raise (Raised 1)
  /\ exists (w2 : World float) (c0 : HessianCallback float),
       callbacks (snd (fisher_matrix pipe_ref [[1%float]] float_world))
         !! length (callbacks float_world) = Some c0
       /\ fisher_matrix pipe_ref ([3%float] :: [])
                        (snd (fisher_matrix pipe_ref [[1%float]] float_world))
          = (Raise (Raised 1), w2)
       /\ callbacks w2 !! length (callbacks float_world)
          = Some (summed (counted c0) (replicate 8 3%float))
       /\ callbacks w2
            !! length (callbacks (snd (fisher_matrix pipe_ref [[1%float]] float_world)))
          = Some (HessianCallback_init (model (pipe float_world)))
       /\ outputs_heap w2
          = outputs_heap (snd (fisher_matrix pipe_ref [[1%float]] float_world))
              ++ [setattr [("logits"%string, VTensor (mkGrad [3%float] true));
                           ("hidden_states"%string, VOpaque 1)]
                          "logits" (VTensor (mkGrad [3%float] false))].
Proof.
  do 5 (split; [reflexivity|]).
  apply (second_run_estimates_on_detached_logits pipe_ref pipe_ref float_world
           [[1%float]] [3%float] []
           [("logits"%string, VTensor (mkGrad [3%float] true));
            ("hidden_states"%string, VOpaque 1)]
           (VTensor (mkGrad [3%float] true)) (VTensor (mkGrad [3%float] false))
           (constant_sample 3%float) (replicate 8 3%float) (Raised 1));
    reflexivity.
Defined.

Lemma reads_between_folds_witness :
  flatten_all (parameters toy_model) [constant_sample 1%float]
  = Ok [replicate 8 1%float]
  /\ flatten_all (parameters toy_model) [constant_sample 3%float]
     = Ok [replicate 8 3%float]
  /\ fst ((add_samples [constant_sample 1%float] ;;;
           r1 <- get_hessian ;;
           add_samples [constant_sample 3%float] ;;;
           r2 <- get_hessian ;;
           ret (r1, r2)) (HessianCallback_init toy_model))
     = Ok (elementwise_mean (parameters toy_model) [replicate 8 1%float],
           elementwise_mean (parameters toy_model)
                            ([replicate 8 1%float] ++ [replicate 8 3%float])).
Proof.
  split; [reflexivity|]. split; [reflexivity|].
  apply (get_hessian_between_folds (collab := float_toy) toy_model
           [constant_sample 1%float] [constant_sample 3%float]
           [replicate 8 1%float] [replicate 8 3%float]); reflexivity.
Defined.

(** The two reads of the example: 1 after the first sample, 2 after the
    second. *)
Lemma reads_between_folds_values :
  fst ((add_samples [constant_sample 1%float] ;;;
        r1 <- get_hessian ;;
        add_samples [constant_sample 3%float] ;;;
        r2 <- get_hessian ;;
        ret (r1, r2)) float_accumulator)
  = Ok (replicate 8 1%float, replicate 8 2%float).
Proof. reflexivity. Qed.
End FirstModelFailures.

Section SecondModelFailures.
#[local] Existing Instance float_elem.
#[local] Existing Instance float_picky.

Lemma missing_logits_witness :
  _forward (pipe picky_world) = BoundMethod forward_impl pipe_ref
  /\ process_items (model (pipe picky_world)) [[1%float]] = Ok item_one_processed
  /\ model_forward (model (pipe picky_world)) true [[1%float; 2%float; 3%float]]
     = Ok no_logits_outputs
  /\ field no_logits_outputs "logits" = None
  /\ exists (w' : World float) (c : HessianCallback float),
       fisher_matrix pipe_ref
                     ([[1%float]] ++ [1%float; 2%float; 3%float] :: [[3%float]])
                     picky_world
       = (Raise (AttributeError "logits"), w')
       /\ callbacks w' !! length (callbacks picky_world) = Some c
       /\ num_samples c = Z.of_nat (length [[1%float]])
       /\ hessian c = foldl tadd (zeros (parameters (model (pipe picky_world))))
                            (map snd item_one_processed)
       /\ outputs_heap w'
          = outputs_heap picky_world ++ map fst item_one_processed
              ++ [no_logits_outputs].
Proof.
  do 4 (split; [reflexivity|]).
  apply (missing_logits_aborts_the_run pipe_ref pipe_ref picky_world
           [[1%float]] [[3%float]] [1%float; 2%float; 3%float]
           item_one_processed no_logits_outputs); reflexivity.
Defined.

Lemma forward_error_witness :
  _forward (pipe picky_world) = BoundMethod forward_impl pipe_ref
  /\ process_items (model (pipe picky_world)) [[1%float]] = Ok item_one_processed
  /\ model_forward (model (pipe picky_world)) true [[]] = Raise (Raised 7)
  /\ (fisher_matrix pipe_ref ([[1%float]] ++ [] :: [[3%float]]) picky_world
      = (Raise (Raised 7), after_items pipe_ref picky_world item_one_processed)
      /\ outputs_heap (after_items pipe_ref picky_world item_one_processed)
         = outputs_heap picky_world ++ map fst item_one_processed
      /\ exists c : HessianCallback float,
           callbacks (after_items pipe_ref picky_world item_one_processed)
             !! length (callbacks picky_world) = Some c
           /\ num_samples c = Z.of_nat (length [[1%float]])
           /\ hessian c
              = foldl tadd (zeros (parameters (model (pipe picky_world))))
                      (map snd item_one_processed)).
Proof.
  do 3 (split; [reflexivity|]).
  apply (forward_error_aborts_the_run pipe_ref pipe_ref picky_world
           [[1%float]] [[3%float]] [] item_one_processed (Raised 7)); reflexivity.
Defined.

Lemma plain_function_slot_witness :
  _forward (pipe plain_function_world) = PlainFunction forward_impl
  /\ (fisher_matrix pipe_ref ([1%float] :: [[3%float]]) plain_function_world
      = (Raise (AttributeError "__func__"), instrumented pipe_ref plain_function_world)
      /\ outputs_heap (instrumented pipe_ref plain_function_world)
         = outputs_heap plain_function_world
      /\ callbacks (instrumented pipe_ref plain_function_world)
           !! length (callbacks plain_function_world)
         = Some (HessianCallback_init (model (pipe plain_function_world)))).
Proof.
  split; [reflexivity|].
  apply (plain_function_slot_fails_on_first_item pipe_ref plain_function_world
           forward_impl [1%float] [[3%float]]).
  reflexivity.
Defined.
End SecondModelFailures.

(** ** Folds that fail, and what a run leaves alone *)

Section DilutedMean.
Context {R : Type} {elem : Elem R} {collab : Collaborators R}.

Lemma after_add_samples (samples : list (list (Tensor R))) (c : HessianCallback R) :
  hessian (after_ops c (map OpAddSample samples))
  = foldl tadd (hessian c) (flattened_valid (arch c) samples)
  /\ num_samples (after_ops c (map OpAddSample samples))
     = num_samples c + Z.of_nat (length samples)
  /\ arch (after_ops c (map OpAddSample samples)) = arch c.
Proof.
  unfold after_ops, flattened_valid. revert c.
  induction samples as [|s samples IH]; intros c.
  - simpl. repeat split. lia.
  - cbn [map foldl after_op omap list_omap]. rewrite add_sample_unfold.
    destruct (to_tensor (arch c) s) as [t|e]; cbn [snd].
    + destruct (IH (summed (counted c) t)) as (-> & -> & ->).
      cbn [summed counted hessian num_samples arch foldl length].
      repeat split. lia.
    + destruct (IH (counted c)) as (-> & -> & ->).
      cbn [counted hessian num_samples arch length].
      repeat split. lia.
Qed.

(** X8: when a caller folds a list of samples and goes on after the folds
    that raise, the running sum holds the samples that flattened and the
    counter counts every call, so that [get_hessian] returns the sum of
    the valid samples divided by the number of all the samples, failed
    ones included. *)
Theorem failed_folds_dilute_the_mean (m : Model) (samples : list (list (Tensor R))) :
  let c := after_ops (HessianCallback_init m) (map OpAddSample samples) in
  hessian c = foldl tadd (zeros (parameters m))
                    (flattened_valid (parameters m) samples)
  /\ num_samples c = Z.of_nat (length samples)
  /\ fst (get_hessian c)
     = Ok (tdiv (foldl tadd (zeros (parameters m))
                       (flattened_valid (parameters m) samples))
                (Z.of_nat (length samples))).
Proof.
  cbv zeta.
  destruct (after_add_samples samples (HessianCallback_init m)) as (Hh & Hn & _).
  cbn [HessianCallback_init hessian num_samples arch] in Hh, Hn.
  rewrite get_hessian_unfold, Hh, Hn. cbn [fst].
  repeat split.
Qed.
End DilutedMean.

Section RunFrame.
Context {R : Type} {elem : Elem R} {collab : Collaborators R}.

Lemma run_frame_refl (cb : nat) (w : World R) :
  is_Some (callbacks w !! cb) -> run_frame cb w w.
Proof.
  intros Hs. repeat split; auto. exists []. by rewrite app_nil_r.
Qed.

Lemma run_frame_trans (cb : nat) (w1 w2 w3 : World R) :
  run_frame cb w1 w2 -> run_frame cb w2 w3 -> run_frame cb w1 w3.
Proof.
  intros (Hp1 & Hg1 & Hc1 & _ & n1 & Ho1) (Hp2 & Hg2 & Hc2 & Hs2 & n2 & Ho2).
  split; [congruence|]. split; [congruence|].
  split; [intros i Hi; rewrite Hc2, Hc1; auto|].
  split; [exact Hs2|].
  exists (n1 ++ n2). by rewrite Ho2, Ho1, app_assoc.
Qed.

Lemma run_frame_step (cb : nat) (w : World R) (c' : HessianCallback R)
      (new : list (ModelOutput R)) (g : bool) :
  (cb < length (callbacks w))%nat ->
  run_frame cb w
    (set_grad_mode
       (set_outputs_heap
          (set_callbacks (set_grad_mode w g) (<[cb := c']> (callbacks w)))
          (outputs_heap w ++ new))
       (grad_mode w)).
Proof.
  intros Hlt. split; [reflexivity|]. split; [reflexivity|].
  cbn [callbacks outputs_heap set_grad_mode set_outputs_heap set_callbacks].
  split; [intros i Hi; by apply list_lookup_insert_ne|].
  split; [exists c'; by apply list_lookup_insert_eq|].
  by exists new.
Qed.

Lemma Pipeline_forward_run_frame (w : World R) (x p : objref) (cb : nat)
      (batch : list Item) :
  get_inference_context (pipe w) = enable_grad_lambda ->
  _forward (pipe w) = BoundMethod (new_func (BoundMethod forward_impl x) cb) p ->
  is_Some (callbacks w !! cb) ->
  run_frame cb w (snd (Pipeline_forward batch w)).
Proof.
  intros Hsel Hf [c Hc].
  assert (Hlt : (cb < length (callbacks w))%nat) by (by eapply lookup_lt_Some).
  rewrite (Pipeline_forward_wrapped w _ p batch Hsel Hf). cbn [snd].
  rewrite (wrapped_forward_unfold (set_grad_mode w true) x p cb c batch Hc).
  assert (Hsame : forall new,
            run_frame cb w
              (set_grad_mode
                 (set_outputs_heap (set_grad_mode w true) (outputs_heap w ++ new))
                 (grad_mode w))).
  { intros new. split; [reflexivity|]. split; [reflexivity|].
    split; [reflexivity|]. split; [by exists c|]. by exists new. }
  destruct (model_forward _ _ batch) as [o|e]; cbn [snd].
  2:{ specialize (Hsame []). rewrite app_nil_r in Hsame.
      by destruct w. }
  cbv zeta.
  destruct (getattr o "logits") as [l|e]; [|apply (Hsame [o])].
  destruct (hess (hc_model c) l) as [Hs|e]; [|apply (Hsame [o])].
  destruct (to_tensor (arch c) Hs) as [t|e];
    [|exact (run_frame_step cb w (counted c) [o] true Hlt)].
  destruct (detach l) as [d|e];
    [|exact (run_frame_step cb w (summed (counted c) t) [o] true Hlt)].
  exact (run_frame_step cb w (summed (counted c) t) [setattr o "logits" d] true Hlt).
Qed.

Lemma run_batches_run_frame (x p : objref) (cb : nat) (bs : list (list Item)) :
  forall w : World R,
    get_inference_context (pipe w) = enable_grad_lambda ->
    _forward (pipe w) = BoundMethod (new_func (BoundMethod forward_impl x) cb) p ->
    is_Some (callbacks w !! cb) ->
    run_frame cb w (snd (run_batches bs w)).
Proof.
  induction bs as [|b bs IH]; intros w Hsel Hf Hs; [by apply run_frame_refl|].
  cbn [run_batches]. rewrite bind_unfold.
  pose proof (Pipeline_forward_run_frame w x p cb b Hsel Hf Hs) as Hb.
  destruct (Pipeline_forward b w) as [[n|e] w1]; [|exact Hb].
  cbn [snd] in Hb. rewrite bind_unfold. unfold read_outputs at 1.
  destruct (outputs_heap w1 !! n) as [o|]; [|exact Hb].
  rewrite bind_unfold.
  destruct Hb as (Hp & Hg & Hc & Hs1 & Hnew).
  assert (Hrest : run_frame cb w1 (snd (run_batches bs w1)))
    by (apply IH; [by rewrite Hp|by rewrite Hp|exact Hs1]).
  assert (Hall : run_frame cb w (snd (run_batches bs w1)))
    by (eapply run_frame_trans; [|exact Hrest]; by repeat split).
  by destruct (run_batches bs w1) as [[q|e] w2].
Qed.

Lemma Forall2_take_singletons (P : list Item -> ModelOutput R -> Prop)
      (new : list (ModelOutput R)) :
  forall dataset : list Item,
    Forall2 P (take (length new) (map (fun x => [x]) dataset)) new ->
    Forall2 (fun item o => P [item] o) (take (length new) dataset) new.
Proof.
  induction new as [|o new IH]; intros dataset Hall; [constructor|].
  destruct dataset as [|d ds]; cbn [length take map] in *;
    inversion Hall; subst.
  constructor; [assumption|by apply IH].
Qed.

Lemma Pipeline_forward_outputs (w : World R) (x p : objref) (cb : nat)
      (batch : list Item) :
  get_inference_context (pipe w) = enable_grad_lambda ->
  _forward (pipe w) = BoundMethod (new_func (BoundMethod forward_impl x) cb) p ->
  is_Some (callbacks w !! cb) ->
  ((forall n, fst (Pipeline_forward batch w) <> Ok n)
   /\ outputs_heap (snd (Pipeline_forward batch w)) = outputs_heap w)
  \/ exists o : ModelOutput R,
       outputs_heap (snd (Pipeline_forward batch w)) = outputs_heap w ++ [o]
       /\ outputs_of_batch (model (pipe w)) batch o.
Proof.
  intros Hsel Hf [c Hc].
  rewrite (Pipeline_forward_wrapped w _ p batch Hsel Hf). cbn [fst snd].
  rewrite (wrapped_forward_unfold (set_grad_mode w true) x p cb c batch Hc).
  cbn [pipe grad_mode set_grad_mode].
  destruct (model_forward (model (pipe w)) true batch) as [o|e] eqn:Em;
    [|left; split; [intros n; discriminate|reflexivity]].
  right. cbv zeta.
  assert (Hraw : outputs_of_batch (model (pipe w)) batch o)
    by (exists o; split; [exact Em|by left]).
  destruct (getattr o "logits") as [l|e] eqn:El; [|by exists o].
  destruct (hess (hc_model c) l) as [Hs|e]; [|by exists o].
  destruct (to_tensor (arch c) Hs) as [t|e]; [|by exists o].
  destruct (detach l) as [d|e] eqn:Ed; [|by exists o].
  exists (setattr o "logits" d). split; [reflexivity|].
  exists o. split; [exact Em|]. right. by exists l, d.
Qed.

Lemma run_batches_outputs (x p : objref) (cb : nat) (bs : list (list Item)) :
  forall w : World R,
    get_inference_context (pipe w) = enable_grad_lambda ->
    _forward (pipe w) = BoundMethod (new_func (BoundMethod forward_impl x) cb) p ->
    is_Some (callbacks w !! cb) ->
    exists new : list (ModelOutput R),
      outputs_heap (snd (run_batches bs w)) = outputs_heap w ++ new
      /\ Forall2 (outputs_of_batch (model (pipe w))) (take (length new) bs) new.
Proof.
  induction bs as [|b bs IH]; intros w Hsel Hf Hs.
  { exists []. split; [by rewrite app_nil_r|constructor]. }
  cbn [run_batches]. rewrite bind_unfold.
  pose proof (Pipeline_forward_run_frame w x p cb b Hsel Hf Hs) as Hb.
  pose proof (Pipeline_forward_outputs w x p cb b Hsel Hf Hs) as Ho.
  assert (Hstop : forall w1 : World R,
            outputs_heap w1 = outputs_heap w
            \/ (exists o, outputs_heap w1 = outputs_heap w ++ [o]
                          /\ outputs_of_batch (model (pipe w)) b o) ->
            exists new : list (ModelOutput R),
              outputs_heap w1 = outputs_heap w ++ new
              /\ Forall2 (outputs_of_batch (model (pipe w)))
                         (take (length new) (b :: bs)) new).
  { intros w1 [Hsame|(o & Hone & Hof)].
    - exists []. split; [by rewrite app_nil_r|constructor].
    - exists [o]. split; [exact Hone|]. cbn [length take].
      rewrite take_0. by constructor. }
  destruct (Pipeline_forward b w) as [[n|e] w1]; cbn [fst snd] in *.
  2:{ apply Hstop. destruct Ho as [[_ Hsame]|Hone]; [by left|by right]. }
  destruct Ho as [[Hno _]|(o & Hone & Hof)]; [by destruct (Hno n)|].
  rewrite bind_unfold. unfold read_outputs at 1.
  destruct (outputs_heap w1 !! n) as [o1|];
    [|apply Hstop; right; by exists o].
  rewrite bind_unfold.
  destruct Hb as (Hp & _ & _ & Hs1 & _).
  destruct (IH w1) as (new & Hnew & Hall);
    [by rewrite Hp|by rewrite Hp|exact Hs1|].
  rewrite Hp in Hall.
  exists (o :: new). split.
  - destruct (run_batches bs w1) as [[q|e] w2]; unfold ret; cbn [snd] in *;
      by rewrite Hnew, Hone, <- app_assoc.
  - cbn [length take]. by constructor.
Qed.

(** X9: a run of the driver on a pipeline that has its own [_forward]
    leaves, whatever its outcome, every accumulator and every outputs
    object that existed before as they were, and the global gradient mode
    as it found it.  It only adds its own accumulator and the outputs
    objects of its items: the accumulators are the earlier ones followed
    by exactly one more, bound to the pipeline's model and its parameter
    structure; the outputs objects are the earlier ones followed by one
    object for each of the first items of the dataset, in order, each the
    object the model returned for that item alone with gradients enabled,
    as returned or with its logits detached; and the pipeline is the
    instrumented one. *)
Theorem fresh_run_leaves_earlier_objects
        (p x : objref) (w : World R) (dataset : list Item) :
  _forward (pipe w) = BoundMethod forward_impl x ->
  (forall (i : nat) (c : HessianCallback R),
      callbacks w !! i = Some c ->
      callbacks (snd (fisher_matrix p dataset w)) !! i = Some c)
  /\ (forall (i : nat) (o : ModelOutput R),
        outputs_heap w !! i = Some o ->
        outputs_heap (snd (fisher_matrix p dataset w)) !! i = Some o)
  /\ grad_mode (snd (fisher_matrix p dataset w)) = grad_mode w
  /\ is_Some (callbacks (snd (fisher_matrix p dataset w)) !! length (callbacks w))
  /\ (exists c' : HessianCallback R,
        callbacks (snd (fisher_matrix p dataset w)) = callbacks w ++ [c']
        /\ hc_model c' = model (pipe w)
        /\ arch c' = parameters (model (pipe w)))
  /\ (exists new : list (ModelOutput R),
        outputs_heap (snd (fisher_matrix p dataset w)) = outputs_heap w ++ new
        /\ Forall2 (fun item o => outputs_of_batch (model (pipe w)) [item] o)
                   (take (length new) dataset) new)
  /\ pipe (snd (fisher_matrix p dataset w)) = pipe (instrumented p w).
Proof.
  intros Hf.
  destruct (instrumented_fresh p x w Hf) as (Hpi & Hinit).
  assert (Hrun : run_frame (length (callbacks w)) (instrumented p w)
                   (snd (fisher_matrix p dataset w))
                 /\ exists new : list (ModelOutput R),
                      outputs_heap (snd (fisher_matrix p dataset w))
                      = outputs_heap w ++ new
                      /\ Forall2 (outputs_of_batch (model (pipe w)))
                                 (take (length new) (batches 1 dataset)) new).
  { rewrite fisher_matrix_unfold. unfold Pipeline_call.
    pose proof (run_batches_run_frame x p (length (callbacks w))
                  (batches 1 dataset) (instrumented p w)) as Hb.
    pose proof (run_batches_outputs x p (length (callbacks w))
                  (batches 1 dataset) (instrumented p w)) as Hn.
    rewrite Hpi in Hb, Hn.
    specialize (Hb eq_refl eq_refl (mk_is_Some _ _ Hinit)).
    specialize (Hn eq_refl eq_refl (mk_is_Some _ _ Hinit)).
    cbn [model outputs_heap instrumented] in Hn.
    destruct (run_batches _ _) as [[q|e] w2]; [|by split].
    rewrite on_callback_get_hessian.
    by destruct (callbacks w2 !! length (callbacks w)). }
  destruct Hrun as ((Hp & Hg & Hc & Hs & _) & new & Hnew & Hall).
  destruct (fisher_matrix_evolves p dataset w) as (_ & _ & Hev).
  destruct (Hev _ _ Hinit) as (c' & Hc' & Hm' & Ha').
  cbn [HessianCallback_init hc_model arch] in Hm', Ha'.
  split; [|split; [|split; [exact Hg|split; [exact Hs|split; [|split]]]]].
  - intros i c Hi.
    assert (Hlt : (i < length (callbacks w))%nat) by (by eapply lookup_lt_Some).
    rewrite Hc by lia. cbn [callbacks instrumented].
    by apply lookup_app_l_Some.
  - intros i o Hi. rewrite Hnew. by apply lookup_app_l_Some.
  - exists c'. split; [|by split].
    apply list_eq. intros i.
    destruct (decide (i = length (callbacks w))) as [->|Hne].
    + rewrite Hc'. symmetry. by apply list_lookup_middle.
    + rewrite Hc by exact Hne. cbn [callbacks instrumented].
      destruct (decide (i < length (callbacks w))%nat) as [Hlt|Hge].
      * by rewrite !lookup_app_l.
      * rewrite !lookup_ge_None_2; [reflexivity| |];
          rewrite length_app; simpl; lia.
  - exists new. split; [exact Hnew|].
    rewrite batches_one in Hall. by apply Forall2_take_singletons.
  - exact Hp.
Qed.
End RunFrame.

Section FrameExamples.
#[local] Existing Instance float_elem.
#[local] Existing Instance float_picky.

Lemma fresh_run_frame_witness :
  _forward (pipe used_store_world) = BoundMethod forward_impl pipe_ref
  /\ ((forall (i : nat) (c : HessianCallback float),
          callbacks used_store_world !! i = Some c ->
          callbacks (snd (fisher_matrix pipe_ref [[1%float]; []] used_store_world)) !! i
          = Some c)
      /\ (forall (i : nat) (o : ModelOutput float),
            outputs_heap used_store_world !! i = Some o ->
            outputs_heap (snd (fisher_matrix pipe_ref [[1%float]; []] used_store_world)) !! i
            = Some o)
      /\ grad_mode (snd (fisher_matrix pipe_ref [[1%float]; []] used_store_world))
         = grad_mode used_store_world
      /\ is_Some (callbacks (snd (fisher_matrix pipe_ref [[1%float]; []] used_store_world))
                    !! length (callbacks used_store_world))
      /\ (exists c' : HessianCallback float,
            callbacks (snd (fisher_matrix pipe_ref [[1%float]; []] used_store_world))
            = callbacks used_store_world ++ [c']
            /\ hc_model c' = model (pipe used_store_world)
            /\ arch c' = parameters (model (pipe used_store_world)))
      /\ (exists new : list (ModelOutput float),
            outputs_heap (snd (fisher_matrix pipe_ref [[1%float]; []] used_store_world))
            = outputs_heap used_store_world ++ new
            /\ Forall2 (fun item o =>
                          outputs_of_batch (model (pipe used_store_world)) [item] o)
                       (take (length new) [[1%float]; []]) new)
      /\ pipe (snd (fisher_matrix pipe_ref [[1%float]; []] used_store_world))
         = pipe (instrumented pipe_ref used_store_world)).
Proof.
  split; [reflexivity|].
  apply (fresh_run_leaves_earlier_objects pipe_ref pipe_ref used_store_world
           [[1%float]; []]).
  reflexivity.
Defined.

(** On the example the run raises on its second item; the earlier
    accumulator still has counter 1 and the new one has counted the first
    item; the one outputs object added is that of the first item, logits
    detached. *)
Lemma fresh_run_frame_values :
  fst (fisher_matrix pipe_ref [[1%float]; []] used_store_world) = Raise (Raised 7)
  /\ num_samples <$> callbacks (snd (fisher_matrix pipe_ref [[1%float]; []]
                                       used_store_world)) !! 0%nat = Some 1
  /\ num_samples <$> callbacks (snd (fisher_matrix pipe_ref [[1%float]; []]
                                       used_store_world)) !! 1%nat = Some 1
  /\ grad_mode (snd (fisher_matrix pipe_ref [[1%float]; []] used_store_world)) = false
  /\ outputs_heap (snd (fisher_matrix pipe_ref [[1%float]; []] used_store_world))
     = outputs_heap used_store_world
         ++ [[("logits"%string, VTensor (mkGrad [1%float] false));
              ("hidden_states"%string, VOpaque 1)]].
Proof. repeat split. Qed.
End FrameExamples.

Section DilutedExample.
#[local] Existing Instance float_elem.
#[local] Existing Instance float_toy.

(** Samples of 2 and 4 with one sample in between that does not flatten:
    the result is 6 / 3 = 2, not the mean 3 of the two valid samples. *)
Lemma failed_fold_dilutes_example :
  fst (get_hessian
         (after_ops float_accumulator
            (map OpAddSample [constant_sample 2%float; []; constant_sample 4%float])))
  = Ok (replicate 8 2%float).
Proof. reflexivity. Qed.
End DilutedExample.
